(** * A shallow embedding of [server.js]

    The server is an Express application of five JSON routes.  The part
    with decision logic is embedded here: the two utility functions
    [makeSign] and [parseComboLine], the per-record classification of the
    remote answer, the sequential loop of [/api/batch-check], the input
    check of [/api/start-check] and the summary of [/api/save-results].
    [/api/test-single], which repeats one turn of the loop for a single
    record, and [/api/upload], which reads the lines of a file, follow
    with [JSON.stringify] after the vocabulary of the first part.

    Conventions.
    - A JavaScript string is the list of its UTF-16 code units.
    - A JavaScript value that reaches the handlers comes out of
      [JSON.parse] (the request body, the remote answer), so values are
      JSON values plus [undefined].  Numbers are the integral ones.  Their
      text is written as decimal digits, which is what [Number::toString]
      gives for a safe integer, one of absolute value at most 2^53 - 1;
      beyond that range JavaScript rounds the digits (2^64 is shown as
      18446744073709552000) or writes an exponent (10^21 is shown as
      1e+21).  A statement that shows the text of a number found in a
      request or in a remote answer therefore asks for [safe_numbers];
      lengths and [Date.now()] are safe integers.
    - An abrupt completion ([throw]) is a constructor of [completion]; the
      network, the timer and the file system are explicit: a handler is a
      function of a world, answered by two oracles, and leaves a log of
      the calls it made. *)

From Stdlib Require Import NArith ZArith List String Ascii Bool Lia.
From Stdlib Require Import DecimalString.
Import ListNotations.

Set Implicit Arguments.
Local Set Warnings "-register-all".

(* ================================================================== *)
(** ** Strings *)

Definition code_unit := N.
Definition jsstring := list code_unit.

(** An ASCII literal of the source. *)
Definition js (s : string) : jsstring :=
  map N_of_ascii (list_ascii_of_string s).

Fixpoint str_eqb (a b : jsstring) : bool :=
  match a, b with
  | [], [] => true
  | x :: a', y :: b' => N.eqb x y && str_eqb a' b'
  | _, _ => false
  end.

Definition colon : code_unit := 58%N.

(** [String.prototype.split] at a one-unit separator. *)
Fixpoint split (sep : code_unit) (s : jsstring) : list jsstring :=
  match s with
  | [] => [[]]
  | c :: r =>
      if N.eqb c sep then [] :: split sep r
      else match split sep r with
           | p :: ps => (c :: p) :: ps
           | [] => [[c]]
           end
  end.

(** [Array.prototype.join] on an array of strings. *)
Fixpoint join (sep : jsstring) (parts : list jsstring) : jsstring :=
  match parts with
  | [] => []
  | p :: ps =>
      match ps with
      | [] => p
      | _ :: _ => p ++ sep ++ join sep ps
      end
  end.

(** [parts.slice(1)]. *)
Definition slice1 (parts : list jsstring) : list jsstring := tl parts.

(** WhiteSpace and LineTerminator of ECMAScript, the units
    [String.prototype.trim] removes. *)
Definition is_white_space (c : code_unit) : bool :=
  ((9 <=? c) && (c <=? 13) || (c =? 32) || (c =? 160) || (c =? 5760)
   || (8192 <=? c) && (c <=? 8202) || (c =? 8232) || (c =? 8233)
   || (c =? 8239) || (c =? 8287) || (c =? 12288) || (c =? 65279))%N.

Fixpoint trim_start (s : jsstring) : jsstring :=
  match s with
  | [] => []
  | c :: r => if is_white_space c then trim_start r else s
  end.

Definition trim_end (s : jsstring) : jsstring := rev (trim_start (rev s)).

Definition trim (s : jsstring) : jsstring := trim_end (trim_start s).

(* ================================================================== *)
(** ** Values and abrupt completions *)

Inductive value : Type :=
| VUndefined
| VNull
| VBool (b : bool)
| VNum (n : Z)
| VStr (s : jsstring)
| VArr (elems : list value)
| VObj (props : list (jsstring * value)).

Inductive exn : Type :=
| TypeError (message : jsstring)
| Error (message : jsstring).

(** [error.message] *)
Definition exn_message (e : exn) : jsstring :=
  match e with
  | TypeError m => m
  | Error m => m
  end.

Inductive completion (A : Type) : Type :=
| Normal (a : A)
| Throw (e : exn).

Arguments Normal {A} a.
Arguments Throw {A} e.

Definition cbind {A B} (c : completion A) (k : A -> completion B)
  : completion B :=
  match c with
  | Normal a => k a
  | Throw e => Throw e
  end.

Declare Scope js_scope.
Delimit Scope js_scope with js.
Notation "x <- c ;; k" := (cbind c (fun x => k))
  (at level 61, c at next level, right associativity) : js_scope.

(** Own property of an object made by [JSON.parse]. *)
Fixpoint lookup (k : jsstring) (props : list (jsstring * value))
  : option value :=
  match props with
  | [] => None
  | (k', v) :: r => if str_eqb k k' then Some v else lookup k r
  end.

Definition lookup_or_undefined (k : jsstring)
  (props : list (jsstring * value)) : value :=
  match lookup k props with
  | Some v => v
  | None => VUndefined
  end.

(** ToBoolean *)
Definition to_boolean (v : value) : bool :=
  match v with
  | VUndefined | VNull => false
  | VBool b => b
  | VNum n => negb (Z.eqb n 0)
  | VStr s => match s with [] => false | _ :: _ => true end
  | VArr _ | VObj _ => true
  end.

(** [a || b] and [a && b] on values already evaluated. *)
Definition js_or (a b : value) : value := if to_boolean a then a else b.
Definition js_and (a b : value) : value := if to_boolean a then b else a.

(** [!a || a.length === 0] is used with the right operand guarded by the
    left one, see [start_check]. *)
Definition js_not (a : value) : bool := negb (to_boolean a).

(** [v === n] for a number literal [n], [v === s] for a string literal. *)
Definition strict_eq_num (v : value) (n : Z) : bool :=
  match v with
  | VNum m => Z.eqb m n
  | _ => false
  end.

Definition strict_eq_str (v : value) (s : jsstring) : bool :=
  match v with
  | VStr t => str_eqb t s
  | _ => false
  end.

(** The decimal digits of an integer, with a sign when it is negative:
    [Number::toString] on a safe integer. *)
Definition number_to_string (n : Z) : jsstring :=
  js (NilZero.string_of_int (Z.to_int n)).

Definition nat_to_string (n : nat) : jsstring :=
  number_to_string (Z.of_nat n).

Definition cannot_convert : exn :=
  TypeError (js "Cannot convert object to primitive value").

(** ToString, as a template literal applies it.  An array is rendered by
    [Array.prototype.join]: [undefined] and [null] elements give the empty
    string.  A plain object is rendered by [Object.prototype.toString],
    unless it has an own property [toString]: a JSON value is never
    callable, so OrdinaryToPrimitive finds no usable method and throws. *)
Fixpoint to_string (v : value) : completion jsstring :=
  match v with
  | VUndefined => Normal (js "undefined")
  | VNull => Normal (js "null")
  | VBool true => Normal (js "true")
  | VBool false => Normal (js "false")
  | VNum n => Normal (number_to_string n)
  | VStr s => Normal s
  | VArr elems =>
      (fix join_elems (first : bool) (l : list value)
         : completion jsstring :=
         match l with
         | [] => Normal []
         | x :: r =>
             cbind (match x with
                    | VUndefined | VNull => Normal []
                    | _ => to_string x
                    end)
               (fun sx =>
                  cbind (join_elems false r)
                    (fun sr =>
                       Normal ((if first then [] else js ",") ++ sx ++ sr)))
         end) true elems
  | VObj props =>
      match lookup (js "toString") props with
      | Some _ => Throw cannot_convert
      | None => Normal (js "[object Object]")
      end
  end.

Definition cannot_read (what : jsstring) (k : jsstring) : exn :=
  TypeError (js "Cannot read properties of " ++ what
             ++ js " (reading '" ++ k ++ js "')").

(** [undefined] and [null] have no properties. *)
Definition nullish (v : value) : bool :=
  match v with
  | VUndefined | VNull => true
  | _ => false
  end.

Definition type_name (v : value) : jsstring :=
  match v with
  | VNull => js "null"
  | _ => js "undefined"
  end.

(** The value of [v.k] when [v] is not nullish, for the names the handlers
    read: [length], and [batch], [tokens], [code], [message], [redirect],
    [data], [status], [email] and the like, which no built-in prototype
    defines, so that only an own property of an object answers them. *)
Definition prop (v : value) (k : jsstring) : value :=
  match v with
  | VObj props => lookup_or_undefined k props
  | VArr l =>
      if str_eqb k (js "length") then VNum (Z.of_nat (List.length l))
      else VUndefined
  | VStr s =>
      if str_eqb k (js "length") then VNum (Z.of_nat (List.length s))
      else VUndefined
  | _ => VUndefined
  end.

(** [v.k] *)
Definition get (v : value) (k : jsstring) : completion value :=
  if nullish v then Throw (cannot_read (type_name v) k)
  else Normal (prop v k).

(** [const { k, ... } = v], the check made before the properties are read;
    [what] is the source text of the right-hand side. *)
Definition destructure (v : value) (k what : jsstring) : completion unit :=
  if nullish v then
    Throw (TypeError (js "Cannot destructure property '" ++ k ++ js "' of '"
                      ++ what ++ js "' as it is " ++ type_name v ++ js "."))
  else Normal tt.

(** [v[0]] *)
Definition get_index0 (v : value) : completion value :=
  match v with
  | VUndefined | VNull => Throw (cannot_read (type_name v) (js "0"))
  | VStr s => Normal (match s with [] => VUndefined | c :: _ => VStr [c] end)
  | VArr l => Normal (match l with [] => VUndefined | x :: _ => x end)
  | VObj props => Normal (lookup_or_undefined (js "0") props)
  | _ => Normal VUndefined
  end.

(* ================================================================== *)
(** ** [parseComboLine] *)

Record combo : Type := { email : jsstring; password : jsstring }.

(** [line.split] exists on strings only: every other JSON value makes the
    call throw. *)
Definition parseComboLine (line : value) : completion (option combo) :=
  match line with
  | VStr s =>
      let parts := split colon s in
      if (2 <=? List.length parts)%nat then
        Normal (Some {| email := trim (hd [] parts);
                        password := trim (join [colon] (slice1 parts)) |})
      else Normal None
  | VUndefined | VNull => Throw (cannot_read (type_name line) (js "split"))
  | _ => Throw (TypeError (js "line.split is not a function"))
  end.

(* ================================================================== *)
(** ** The digest: UTF-8, MD5, lowercase hexadecimal *)

Definition is_high_surrogate (c : code_unit) : bool :=
  ((55296 <=? c) && (c <=? 56319))%N.

Definition is_low_surrogate (c : code_unit) : bool :=
  ((56320 <=? c) && (c <=? 57343))%N.

Definition utf8_of_code_point (p : N) : list N :=
  (if p <? 128 then [p]
   else if p <? 2048 then
     [N.lor 192 (N.shiftr p 6); N.lor 128 (N.land p 63)]
   else if p <? 65536 then
     [N.lor 224 (N.shiftr p 12);
      N.lor 128 (N.land (N.shiftr p 6) 63);
      N.lor 128 (N.land p 63)]
   else
     [N.lor 240 (N.shiftr p 18);
      N.lor 128 (N.land (N.shiftr p 12) 63);
      N.lor 128 (N.land (N.shiftr p 6) 63);
      N.lor 128 (N.land p 63)])%N.

(** U+FFFD *)
Definition replacement : list N := [239; 191; 189]%N.

(** The bytes [hash.update(signStr, 'utf8')] digests: a surrogate pair is
    one code point, a surrogate without its partner is written as U+FFFD. *)
Fixpoint utf8_encode (s : jsstring) : list N :=
  match s with
  | [] => []
  | c :: r =>
      if is_high_surrogate c then
        match r with
        | d :: r' =>
            if is_low_surrogate d then
              utf8_of_code_point
                (65536 + (c - 55296) * 1024 + (d - 56320))%N
              ++ utf8_encode r'
            else replacement ++ utf8_encode r
        | [] => replacement
        end
      else if is_low_surrogate c then replacement ++ utf8_encode r
      else utf8_of_code_point c ++ utf8_encode r
  end.

Module MD5.

Local Open Scope N_scope.

Definition word := N.

Definition wrap (x : N) : word := N.land x 4294967295.

Definition add32 (a b : word) : word := wrap (a + b).

Definition not32 (a : word) : word := N.lxor a 4294967295.

Definition rotl32 (x : word) (s : N) : word :=
  wrap (N.lor (N.shiftl x s) (N.shiftr x (32 - s))).

Definition shifts : list N :=
  [7; 12; 17; 22; 7; 12; 17; 22; 7; 12; 17; 22; 7; 12; 17; 22;
   5; 9; 14; 20; 5; 9; 14; 20; 5; 9; 14; 20; 5; 9; 14; 20;
   4; 11; 16; 23; 4; 11; 16; 23; 4; 11; 16; 23; 4; 11; 16; 23;
   6; 10; 15; 21; 6; 10; 15; 21; 6; 10; 15; 21; 6; 10; 15; 21]%N.

(** floor (2^32 * |sin (i + 1)|) *)
Definition sines : list N :=
  [3614090360; 3905402710; 606105819; 3250441966;
   4118548399; 1200080426; 2821735955; 4249261313;
   1770035416; 2336552879; 4294925233; 2304563134;
   1804603682; 4254626195; 2792965006; 1236535329;
   4129170786; 3225465664; 643717713; 3921069994;
   3593408605; 38016083; 3634488961; 3889429448;
   568446438; 3275163606; 4107603335; 1163531501;
   2850285829; 4243563512; 1735328473; 2368359562;
   4294588738; 2272392833; 1839030562; 4259657740;
   2763975236; 1272893353; 4139469664; 3200236656;
   681279174; 3936430074; 3572445317; 76029189;
   3654602809; 3873151461; 530742520; 3299628645;
   4096336452; 1126891415; 2878612391; 4237533241;
   1700485571; 2399980690; 4293915773; 2240044497;
   1873313359; 4264355552; 2734768916; 1309151649;
   4149444226; 3174756917; 718787259; 3951481745]%N.

Record regs : Type := { ra : word; rb : word; rc : word; rd : word }.

Definition init : regs :=
  {| ra := 1732584193; rb := 4023233417;
     rc := 2562383102; rd := 271733878 |}.

(** One of the 64 operations on the block [m] of sixteen words. *)
Definition step (m : list word) (r : regs) (i : nat) : regs :=
  let a := ra r in let b := rb r in let c := rc r in let d := rd r in
  let '(f, g) :=
    if (i <? 16)%nat then
      (N.lor (N.land b c) (N.land (not32 b) d), i)
    else if (i <? 32)%nat then
      (N.lor (N.land d b) (N.land (not32 d) c), (5 * i + 1) mod 16)%nat
    else if (i <? 48)%nat then
      (N.lxor (N.lxor b c) d, (3 * i + 5) mod 16)%nat
    else
      (N.lxor c (N.lor b (not32 d)), (7 * i) mod 16)%nat in
  let f' := add32 (add32 (add32 f a) (nth i sines 0%N)) (nth g m 0%N) in
  {| ra := d; rd := c; rc := b;
     rb := add32 b (rotl32 f' (nth i shifts 0%N)) |}.

Definition block (r : regs) (m : list word) : regs :=
  let r' := fold_left (step m) (seq 0%nat 64%nat) r in
  {| ra := add32 (ra r) (ra r'); rb := add32 (rb r) (rb r');
     rc := add32 (rc r) (rc r'); rd := add32 (rd r) (rd r') |}.

(** Little-endian bytes of a number, [k] of them. *)
Fixpoint le_bytes (k : nat) (x : N) : list N :=
  match k with
  | O => []
  | S k' => N.land x 255 :: le_bytes k' (N.shiftr x 8)
  end.

Fixpoint le_word (bs : list N) : N :=
  match bs with
  | [] => 0
  | b :: r => b + 256 * le_word r
  end.

(** Cut a list into pieces of [k] elements; [fuel] bounds the pieces. *)
Fixpoint pieces {A} (k : nat) (fuel : nat) (l : list A) : list (list A) :=
  match fuel with
  | O => []
  | S fuel' =>
      match l with
      | [] => []
      | _ :: _ => firstn k l :: pieces k fuel' (skipn k l)
      end
  end.

Definition pad (msg : list N) : list N :=
  let len := N.of_nat (List.length msg) in
  let zeros := N.to_nat ((119 - len mod 64) mod 64) in
  msg ++ [128%N] ++ repeat 0%N zeros
      ++ le_bytes 8%nat (N.land (8 * len) 18446744073709551615).

Definition blocks (msg : list N) : list (list word) :=
  let p := pad msg in
  map (fun b => map le_word (pieces 4%nat 16%nat b)) (pieces 64%nat (List.length p) p).

Definition digest (msg : list N) : list N :=
  let r := fold_left block (blocks msg) init in
  le_bytes 4%nat (ra r) ++ le_bytes 4%nat (rb r)
  ++ le_bytes 4%nat (rc r) ++ le_bytes 4%nat (rd r).

End MD5.

Definition hex_digit (n : N) : code_unit :=
  (if n <? 10 then 48 + n else 87 + n)%N.

(** [digest('hex')] *)
Definition hex (bytes : list N) : jsstring :=
  flat_map (fun b => [hex_digit (N.shiftr b 4); hex_digit (N.land b 15)])
    bytes.

(* ================================================================== *)
(** ** [makeSign] *)

(** The template literal of [makeSign], on arguments already strings. *)
Definition signStr (email e_captcha channel country op : jsstring)
  : jsstring :=
  js "channel=" ++ channel ++ js "&country=" ++ country
  ++ js "&e_captcha=" ++ e_captcha ++ js "&email=" ++ email
  ++ js "&op=" ++ op.

Definition md5_hex (s : jsstring) : jsstring :=
  hex (MD5.digest (utf8_encode s)).

(** A default parameter value replaces [undefined] only. *)
Definition default_param (v d : value) : value :=
  match v with
  | VUndefined => d
  | _ => v
  end.

Definition makeSign (email e_captcha channel country op : value)
  : completion jsstring :=
  let channel := default_param channel (VStr []) in
  let country := default_param country (VStr []) in
  let op := default_param op (VStr (js "email_code_login")) in
  (ch <- to_string channel ;;
   co <- to_string country ;;
   ca <- to_string e_captcha ;;
   em <- to_string email ;;
   o <- to_string op ;;
   Normal (md5_hex (signStr em ca ch co o)))%js.

(* ================================================================== *)
(** ** The outside world *)

(** What [client.request(options, ...)] and [req.write(payload)] send.
    [new URL(API_URL)] gives the host, the port of https and the path; the
    headers are constants, but for [Content-Length], and are left out.
    [payload] is the object handed to [JSON.stringify]. *)
Record request : Type := {
  req_hostname : jsstring;
  req_port : Z;
  req_path : jsstring;
  req_timeout : Z;
  req_payload : value
}.

(** How the round trip ends: the body arrived, and [JSON.parse] gave a
    value or failed; the socket emitted [error]; the timeout fired. *)
Inductive transport : Type :=
| Body (parsed : option value)
| SocketError (err : exn)
| TimedOut.

Inductive event : Type :=
| Sent (r : request)
| Timer (ms : Z)
| Written (name content : jsstring).

(** [res.status(s).json(body)] *)
Record http_response : Type := { res_status : Z; res_body : value }.

(** The promise wrapped around the request: what [await] gives. *)
Definition settle (t : transport) : completion value :=
  match t with
  | Body (Some v) => Normal v
  | Body None => Throw (Error (js "Invalid JSON response"))
  | SocketError err => Throw err
  | TimedOut => Throw (Error (js "Request timeout"))
  end.

(** A scripted remote end: the n-th request gets the n-th answer, and a
    timeout once the script is exhausted. *)
Definition scripted (answers : list transport) (r : request) (n : nat)
  : transport * nat :=
  (nth n answers TimedOut, S n).

(** A disk that accepts every write. *)
Definition disk_ok (name content : jsstring) (n : nat) : option exn * nat :=
  (None, n).

(* ================================================================== *)
(** ** The classification of a remote answer *)

Definition nl : jsstring := [10%N].

(** [{ status, message: resultMessage, email: parsed.email, code,
      serverMessage: message }] *)
Definition result_object (status resultMessage : jsstring)
  (email code message : value) : value :=
  VObj [(js "status", VStr status);
        (js "message", VStr resultMessage);
        (js "email", email);
        (js "code", code);
        (js "serverMessage", message)].

(** [{ status: 'error', message, email }], pushed for a line that does not
    parse and by the [catch] of an attempt. *)
Definition error_object (message : jsstring) (email : value) : value :=
  VObj [(js "status", VStr (js "error"));
        (js "message", VStr message);
        (js "email", email)].

(** [response.redirect || (response.data && response.data.redirect)] *)
Definition redirect_of (response : value) : value :=
  js_or (prop response (js "redirect"))
    (js_and (prop response (js "data"))
       (prop (prop response (js "data")) (js "redirect"))).

(** The code between the [await] and [results.push] of the batch loop: it
    runs inside the [try] of the attempt, so what it throws is caught
    there. *)
Definition classify (response : value) (email : jsstring)
  : completion value :=
  (_ <- destructure response (js "code") (js "response") ;;
   let code := prop response (js "code") in
   let message := prop response (js "message") in
   sm <- (if strict_eq_num code 1004
             && strict_eq_str message (js "Error_NoAccount") then
            Normal (js "invalid", js "No account found")
          else if strict_eq_num code 0
                  && strict_eq_str message (js "Error_Success") then
            (r <- to_string (redirect_of response) ;;
             Normal (js "valid", js "Success! Redirect: " ++ r))
          else if strict_eq_num code 1004
                  && strict_eq_str message (js "Error_FailedTooMuch") then
            Normal (js "error", js "Too many failed attempts. IP/Proxy banned")
          else if strict_eq_num code 1004
                  && strict_eq_str message (js "Error_ECaptcha_VerifyFail")
          then
            Normal (js "error", js "Captcha verification failed")
          else
            (c <- to_string code ;;
             m <- to_string message ;;
             Normal (js "unknown", js "Code: " ++ c ++ js ", Message: " ++ m))) ;;
   Normal (result_object (fst sm) (snd sm) (VStr email) code message))%js.

(** The object given to [JSON.stringify]. *)
Definition make_payload (op sign email : jsstring) (token : value) : value :=
  VObj [(js "op", VStr op);
        (js "sign", VStr sign);
        (js "params",
         VObj [(js "email", VStr email);
               (js "channel", VStr []);
               (js "e_captcha", token);
               (js "country", VStr [])]);
        (js "lang", VStr (js "en"))].

(** [API_URL] taken apart by [new URL], and the timeout of [options]. *)
Definition make_request (payload : value) : request :=
  {| req_hostname := js "accountmtapi.mobilelegends.com";
     req_port := 443;
     req_path := js "/";
     req_timeout := 30000;
     req_payload := payload |}.

(** The strings a [for ... of] over a string yields: its code points. *)
Fixpoint code_points (s : jsstring) : list jsstring :=
  match s with
  | [] => []
  | c :: r =>
      match r with
      | d :: r' =>
          if is_high_surrogate c && is_low_surrogate d
          then [c; d] :: code_points r'
          else [c] :: code_points r
      | [] => [[c]]
      end
  end.

(** [for (const combo of batch)]: what the loop ranges over.  Every other
    value, [undefined] and [null] included, has no iterator, and the
    error names the expression of the source. *)
Definition iterate (batch : value) : completion (list value) :=
  match batch with
  | VArr l => Normal l
  | VStr s => Normal (map VStr (code_points s))
  | _ => Throw (TypeError (js "batch is not iterable"))
  end.

(* ================================================================== *)
(** ** [/api/start-check]: the input test and the worker data *)

(** [!v || v.length === 0] *)
Definition absent_or_empty (v : value) : bool :=
  js_not v || strict_eq_num (prop v (js "length")) 0.

Definition default_settings : value :=
  VObj [(js "threadCount", VNum 4);
        (js "delayBetweenRequests", VNum 1000);
        (js "timeout", VNum 30000);
        (js "useProxies", VBool false);
        (js "rotateProxies", VBool false)].

Definition workerData (combos tokens proxies settings : value) : value :=
  VObj [(js "combos", combos);
        (js "tokens", tokens);
        (js "proxies", js_or proxies (VArr []));
        (js "settings", js_or settings default_settings)].

(* ================================================================== *)
(** ** [/api/save-results]: the summary *)

(** [l.filter(r => r.status === s)] on the elements of an array *)
Fixpoint filter_status (s : jsstring) (l : list value)
  : completion (list value) :=
  match l with
  | [] => Normal []
  | r :: rest =>
      (st <- get r (js "status") ;;
       kept <- filter_status s rest ;;
       Normal (if strict_eq_str st s then r :: kept else kept))%js
  end.

(** [results.filter(...)]: only an array has the method. *)
Definition results_filter (results : value) (s : jsstring)
  : completion (list value) :=
  match results with
  | VArr l => filter_status s l
  | _ => Throw (TypeError (js "results.filter is not a function"))
  end.

(** [validResults.forEach(result => { content += `${result.email}\n` })] *)
Fixpoint email_lines (valid : list value) : completion jsstring :=
  match valid with
  | [] => Normal []
  | r :: rest =>
      (e <- to_string (prop r (js "email")) ;;
       more <- email_lines rest ;;
       Normal (e ++ nl ++ more))%js
  end.

(** The two code units of the rule, fifty times. *)
Definition rule : jsstring := List.concat (repeat [226; 8226]%N 50).

(** The text of the file, from the header to the list of valid accounts;
    [locale] is what [new Date().toLocaleString()] gave. *)
Definition results_content (locale : jsstring) (results : value)
  (validResults : list value) : completion jsstring :=
  (total <- to_string (prop results (js "length")) ;;
   invalid <- results_filter results (js "invalid") ;;
   errors <- results_filter results (js "error") ;;
   let content :=
     js "MLBB Checker Results - " ++ locale ++ nl
     ++ js "Total Checked: " ++ total ++ nl
     ++ js "Valid: " ++ nat_to_string (List.length validResults) ++ nl
     ++ js "Invalid: " ++ nat_to_string (List.length invalid) ++ nl
     ++ js "Errors: " ++ nat_to_string (List.length errors) ++ nl ++ nl in
   if (0 <? List.length validResults)%nat then
     (lines <- email_lines validResults ;;
      Normal (content ++ js "VALID ACCOUNTS:" ++ nl ++ rule ++ nl ++ lines))
   else Normal content)%js.

(** [.replace(/[:.]/g, '-')] *)
Definition dashes (s : jsstring) : jsstring :=
  map (fun c => if (c =? 58)%N || (c =? 46)%N then 45%N else c) s.

Definition server_error (e : exn) : http_response :=
  {| res_status := 500;
     res_body := VObj [(js "error", VStr (exn_message e))] |}.

Definition bad_request (message : string) : http_response :=
  {| res_status := 400;
     res_body := VObj [(js "error", VStr (js message))] |}.

Definition ok (body : list (jsstring * value)) : http_response :=
  {| res_status := 200; res_body := VObj body |}.

Section Handlers.

Variable World : Type.
(** The remote end and the file system. *)
Variable send : request -> World -> transport * World.
Variable write_file : jsstring -> jsstring -> World -> option exn * World.

Record state : Type := { world : World; log : list event }.

Definition io (A : Type) : Type := state -> completion A * state.

Definition ret {A} (a : A) : io A := fun st => (Normal a, st).

Definition bind {A B} (m : io A) (k : A -> io B) : io B :=
  fun st =>
    match m st with
    | (Normal a, st') => k a st'
    | (Throw e, st') => (Throw e, st')
    end.

Definition lift {A} (c : completion A) : io A := fun st => (c, st).

(** [try { m } catch (error) { h error }] *)
Definition try_catch {A} (m : io A) (h : exn -> io A) : io A :=
  fun st =>
    match m st with
    | (Normal a, st') => (Normal a, st')
    | (Throw e, st') => h e st'
    end.

Definition emit (e : event) : io unit :=
  fun st => (Normal tt, {| world := world st; log := log st ++ [e] |}).

(** [await new Promise(resolve => setTimeout(resolve, ms))] *)
Definition sleep (ms : Z) : io unit := emit (Timer ms).

(** [await new Promise((resolve, reject) => { ... })] around the request *)
Definition round_trip (r : request) : io value :=
  fun st =>
    let '(t, w) := send r (world st) in
    (settle t, {| world := w; log := log st ++ [Sent r] |}).

(** [fs.writeFileSync] *)
Definition writeFileSync (name content : jsstring) : io unit :=
  fun st =>
    let '(r, w) := write_file name content (world st) in
    (match r with Some e => Throw e | None => Normal tt end,
     {| world := w; log := log st ++ [Written name content] |}).

Declare Scope io_scope.
Delimit Scope io_scope with io.
Notation "x <- c ;; k" := (bind c (fun x => k))
  (at level 61, c at next level, right associativity) : io_scope.

(** The body of the inner [try]: sign, send, classify. *)
Definition attempt (parsed : combo) (token : value) : io value :=
  (let op := js "email_code_login" in
   sign <- lift (makeSign (VStr (email parsed)) token
                   VUndefined VUndefined VUndefined) ;;
   let payload := make_payload op sign (email parsed) token in
   response <- round_trip (make_request payload) ;;
   lift (classify response (email parsed)))%io.

(** The inner [try] with its [catch]: whatever is thrown while signing,
    sending or classifying becomes an [error] object. *)
Definition attempt_or_error (parsed : combo) (token : value) : io value :=
  try_catch (attempt parsed token)
    (fun error =>
       ret (error_object (exn_message error) (VStr (email parsed)))).

(** One turn of [for (const combo of batch)]; [results] is the array
    built so far. *)
Definition batch_turn (tokens : value) (results : list value)
  (combo : value) : io (list value) :=
  (parsed <- lift (parseComboLine combo) ;;
   match parsed with
   | None =>
       ret (results
            ++ [error_object (js "Invalid combo format") combo])
   | Some parsed =>
       t0 <- lift (get_index0 tokens) ;;
       let token := js_or t0 (VStr []) in
       outcome <- attempt_or_error parsed token ;;
       _ <- sleep 500 ;;
       ret (results ++ [outcome])
   end)%io.

Fixpoint batch_loop (tokens : value) (results : list value)
  (batch : list value) : io (list value) :=
  match batch with
  | [] => ret results
  | combo :: rest =>
      (results' <- batch_turn tokens results combo ;;
       batch_loop tokens results' rest)%io
  end.

(** [app.post('/api/batch-check', ...)] on [req.body] *)
Definition batch_check (body : value) : io http_response :=
  try_catch
    (_ <- lift (destructure body (js "batch") (js "req.body")) ;;
     let batch := prop body (js "batch") in
     let tokens := prop body (js "tokens") in
     items <- lift (iterate batch) ;;
     results <- batch_loop tokens [] items ;;
     ret (ok [(js "success", VBool true);
              (js "results", VArr results)]))%io
    (fun error => ret (server_error error)).

(** [app.post('/api/start-check', ...)]; [now] is [Date.now()].  The
    worker data is built and then dropped: nothing is started. *)
Definition start_check (now : Z) (body : value) : io http_response :=
  try_catch
    (_ <- lift (destructure body (js "combos") (js "req.body")) ;;
     let combos := prop body (js "combos") in
     let tokens := prop body (js "tokens") in
     let proxies := prop body (js "proxies") in
     let settings := prop body (js "settings") in
     if absent_or_empty combos || absent_or_empty tokens then
       ret (bad_request "Combos and tokens are required")
     else
       let _ := workerData combos tokens proxies settings in
       ret (ok [(js "success", VBool true);
                (js "message", VStr (js "Checking started"));
                (js "totalAccounts", prop combos (js "length"));
                (js "checkId", VStr (number_to_string now))]))%io
    (fun error => ret (server_error error)).

(** [app.post('/api/save-results', ...)]; [iso] and [locale] are what
    [new Date().toISOString()] and [new Date().toLocaleString()] gave. *)
Definition save_results (iso locale : jsstring) (body : value)
  : io http_response :=
  try_catch
    (_ <- lift (destructure body (js "results") (js "req.body")) ;;
     let results := prop body (js "results") in
     if absent_or_empty results then
       ret (bad_request "No results to save")
     else
       validResults <- lift (results_filter results (js "valid")) ;;
       let filename := js "results_" ++ dashes iso ++ js ".txt" in
       content <- lift (results_content locale results validResults) ;;
       _ <- writeFileSync filename content ;;
       ret (ok [(js "success", VBool true);
                (js "filename", VStr filename);
                (js "downloadUrl", VStr (js "/results/" ++ filename))]))%io
    (fun error => ret (server_error error)).

End Handlers.

Arguments start_check World now body _ : clear implicits.

(* ================================================================== *)
(** ** Vocabulary of the statements *)

(** The text before the first separator, and the text after it when there
    is one: the two halves the specification speaks of. *)
Fixpoint before_first (sep : code_unit) (s : jsstring) : jsstring :=
  match s with
  | [] => []
  | c :: r => if N.eqb c sep then [] else c :: before_first sep r
  end.

Fixpoint after_first (sep : code_unit) (s : jsstring) : option jsstring :=
  match s with
  | [] => None
  | c :: r => if N.eqb c sep then Some r else after_first sep r
  end.

(** The record of a line, when the line is well formed. *)
Definition record_of (line : jsstring) : option combo :=
  match after_first colon line with
  | Some rest => Some {| email := trim (before_first colon line);
                         password := trim rest |}
  | None => None
  end.

(** The well-formed records of a batch, in input order. *)
Fixpoint records_of (lines : list jsstring) : list combo :=
  match lines with
  | [] => []
  | line :: rest =>
      match record_of line with
      | Some c => c :: records_of rest
      | None => records_of rest
      end
  end.

(** What identifies a line in its outcome: the identifier of its record,
    or the whole line when it is malformed. *)
Definition identifier_of (line : jsstring) : jsstring :=
  match record_of line with
  | Some c => email c
  | None => line
  end.

(** An object pushed on [results]: it starts with a status, a message and
    the identifier, all strings. *)
Definition is_outcome (identifier : jsstring) (r : value) : Prop :=
  exists status message rest,
    r = VObj ((js "status", VStr status) :: (js "message", VStr message)
              :: (js "email", VStr identifier) :: rest)
    /\ In status [js "valid"; js "invalid"; js "error"; js "unknown"].

Definition an_outcome (r : value) : Prop := exists id, is_outcome id r.

(** The request made for a record with a token. *)
Definition request_for (token : value) (sign : jsstring) (c : combo)
  : request :=
  make_request (make_payload (js "email_code_login") sign (email c) token).

(** What one turn of the loop adds to the log. *)
Definition turn_events (token : value) (line : jsstring) : list event :=
  match record_of line with
  | None => []
  | Some c =>
      match makeSign (VStr (email c)) token
              VUndefined VUndefined VUndefined with
      | Normal sign => [Sent (request_for token sign c); Timer 500]
      | Throw _ => [Timer 500]
      end
  end.

(** The signature of a record under a string token. *)
Definition sign_of (token : jsstring) (c : combo) : jsstring :=
  md5_hex (signStr (email c) token [] [] (js "email_code_login")).

Definition sent (l : list event) : list request :=
  flat_map (fun e => match e with Sent r => [r] | _ => [] end) l.

Definition timers (l : list event) : list Z :=
  flat_map (fun e => match e with Timer ms => [ms] | _ => [] end) l.

(** The number of outcomes of a list whose status is [s]. *)
Fixpoint count_status (s : jsstring) (l : list value) : nat :=
  match l with
  | [] => O
  | r :: rest =>
      if strict_eq_str (prop r (js "status")) s
      then S (count_status s rest) else count_status s rest
  end.

(** The header of the export for given counts. *)
Definition header (locale : jsstring) (total valid invalid errors : nat)
  : jsstring :=
  js "MLBB Checker Results - " ++ locale ++ nl
  ++ js "Total Checked: " ++ nat_to_string total ++ nl
  ++ js "Valid: " ++ nat_to_string valid ++ nl
  ++ js "Invalid: " ++ nat_to_string invalid ++ nl
  ++ js "Errors: " ++ nat_to_string errors ++ nl ++ nl.

(** What the [catch] of an attempt makes of a completion. *)
Definition outcome_of (c : completion value) (identifier : jsstring)
  : value :=
  match c with
  | Normal r => r
  | Throw e => error_object (exn_message e) (VStr identifier)
  end.

(** The answer carries this code and this message. *)
Definition row (response : value) (code : Z) (message : string) : Prop :=
  prop response (js "code") = VNum code
  /\ prop response (js "message") = VStr (js message).

(** [Number.isSafeInteger], and the values all of whose numbers are safe
    integers: those whose text is the one [to_string] and [stringify]
    write. *)
Definition safe_integer (n : Z) : bool :=
  (Z.abs n <=? 9007199254740991)%Z.

Fixpoint safe_numbers (v : value) : bool :=
  match v with
  | VNum n => safe_integer n
  | VArr elems =>
      (fix all (l : list value) : bool :=
         match l with
         | [] => true
         | x :: r => safe_numbers x && all r
         end) elems
  | VObj props =>
      (fix all (l : list (jsstring * value)) : bool :=
         match l with
         | [] => true
         | (_, x) :: r => safe_numbers x && all r
         end) props
  | _ => true
  end.

(** The classification table, as the loop applies it to the end [t] of a
    round trip made for [identifier].  The status, and whether a value of
    the answer can be turned into text at all, are stated for every
    answer; the text itself is the one of [to_string] when the numbers of
    the value are safe integers. *)
Definition follows_table (t : transport) (identifier : jsstring)
  (outcome : value) : Prop :=
  (forall e, settle t = Throw e ->
     outcome = error_object (exn_message e) (VStr identifier))
  /\ (forall response, settle t = Normal response ->
       let code := prop response (js "code") in
       let message := prop response (js "message") in
       (nullish response = true ->
        outcome = error_object
                    (js "Cannot destructure property 'code' of 'response'"
                     ++ js " as it is " ++ type_name response ++ js ".")
                    (VStr identifier))
       /\ (row response 1004 "Error_NoAccount" ->
           outcome = result_object (js "invalid") (js "No account found")
                       (VStr identifier) code message)
       /\ (row response 0 "Error_Success" ->
           (forall e, to_string (redirect_of response) = Throw e ->
              outcome = error_object (exn_message e) (VStr identifier))
           /\ (forall url, to_string (redirect_of response) = Normal url ->
                 exists text,
                   outcome = result_object (js "valid")
                               (js "Success! Redirect: " ++ text)
                               (VStr identifier) code message
                   /\ (safe_numbers (redirect_of response) = true ->
                       text = url)))
       /\ (row response 1004 "Error_FailedTooMuch" ->
           outcome = result_object (js "error")
                       (js "Too many failed attempts. IP/Proxy banned")
                       (VStr identifier) code message)
       /\ (row response 1004 "Error_ECaptcha_VerifyFail" ->
           outcome = result_object (js "error")
                       (js "Captcha verification failed")
                       (VStr identifier) code message)
       /\ (~ row response 1004 "Error_NoAccount" ->
           ~ row response 0 "Error_Success" ->
           ~ row response 1004 "Error_FailedTooMuch" ->
           ~ row response 1004 "Error_ECaptcha_VerifyFail" ->
           nullish response = false ->
           (forall e, to_string code = Throw e ->
              outcome = error_object (exn_message e) (VStr identifier))
           /\ (forall c e, to_string code = Normal c ->
                 to_string message = Throw e ->
                 outcome = error_object (exn_message e) (VStr identifier))
           /\ (forall c m, to_string code = Normal c ->
                 to_string message = Normal m ->
                 exists code_text message_text,
                   outcome = result_object (js "unknown")
                               (js "Code: " ++ code_text
                                ++ js ", Message: " ++ message_text)
                               (VStr identifier) code message
                   /\ (safe_numbers code = true -> code_text = c)
                   /\ (safe_numbers message = true -> message_text = m)))).

Definition start {World} (w : World) : state World :=
  {| world := w; log := [] |}.

(** A request body with the fields of [/api/batch-check]. *)
Definition batch_body (batch tokens : value) : value :=
  VObj [(js "batch", batch); (js "tokens", tokens)].

(** Sample data: two lines around a malformed one, the answers of the
    table, a request body that asks for a delay. *)
Definition answer (code : Z) (message : string) : value :=
  VObj [(js "code", VNum code); (js "message", VStr (js message))].

Definition sample_lines : list jsstring :=
  [js "a@x.com:tok1"; js "badline"; js "b@x.com:tok2"].

Definition sample_answers : list transport :=
  [Body (Some (answer 0 "Error_Success"));
   Body (Some (answer 1004 "Error_NoAccount"))].

Definition sample_record : combo :=
  {| email := js "a@x.com"; password := js "tok1" |}.

Definition sample_body_with_settings : value :=
  VObj [(js "batch", VArr (map VStr sample_lines));
        (js "tokens", VArr [VStr (js "T")]);
        (js "settings", VObj [(js "delayBetweenRequests", VNum 2000)])].

Definition sample_body : value :=
  batch_body (VArr (map VStr sample_lines)) (VArr [VStr (js "T")]).

Definition sample_outcomes : list value :=
  [result_object (js "valid") (js "Success! Redirect: undefined")
     (VStr (js "a@x.com")) (VNum 0) (VStr (js "Error_Success"));
   error_object (js "Invalid combo format") (VStr (js "badline"))].

(** The status of the outcome of [sample_record] when the round trip ends
    with [t]. *)
Definition status_after (t : transport) : value :=
  match fst (attempt_or_error (scripted [t]) sample_record (VStr (js "T"))
               (start 0%nat)) with
  | Normal r => prop r (js "status")
  | Throw _ => VUndefined
  end.

(** All the strings of [k] hexadecimal digits; the list is reasoned
    about, never computed. *)
Definition hex_digits : list code_unit :=
  map hex_digit [0; 1; 2; 3; 4; 5; 6; 7; 8; 9; 10; 11; 12; 13; 14; 15]%N.

Fixpoint all_hex (k : nat) : list jsstring :=
  match k with
  | O => [[]]
  | S k' => flat_map (fun c => map (cons c) (all_hex k')) hex_digits
  end.

(** The identifiers [""], ["a"], ["aa"], ... *)
Definition a_times (n : nat) : jsstring := repeat 97%N n.

(** A string without a surrogate that lacks its partner, all of whose
    elements are code units. *)
Fixpoint well_formed (s : jsstring) : bool :=
  match s with
  | [] => true
  | c :: r =>
      if is_high_surrogate c then
        match r with
        | d :: r' => is_low_surrogate d && well_formed r'
        | [] => false
        end
      else negb (is_low_surrogate c) && (c <? 65536)%N && well_formed r
  end.

(** The code units of a code point. *)
Definition units_of (p : N) : jsstring :=
  (if p <? 65536 then [p]
   else [55296 + (p - 65536) / 1024; 56320 + (p - 65536) mod 1024])%N.

(* ================================================================== *)
(** ** [JSON.stringify], as [/api/test-single] applies it to an answer *)

Definition hex4 (c : code_unit) : jsstring :=
  [hex_digit (N.land (N.shiftr c 12) 15); hex_digit (N.land (N.shiftr c 8) 15);
   hex_digit (N.land (N.shiftr c 4) 15); hex_digit (N.land c 15)].

(** One code unit inside a JSON string: the short escapes, then [\uXXXX]
    for the other control characters and for a surrogate left alone. *)
Definition quote_unit (c : code_unit) : jsstring :=
  (if c =? 8 then js "\b"
   else if c =? 9 then js "\t"
   else if c =? 10 then js "\n"
   else if c =? 12 then js "\f"
   else if c =? 13 then js "\r"
   else if c =? 34 then [92; 34]
   else if c =? 92 then [92; 92]
   else if (c <? 32) || is_high_surrogate c || is_low_surrogate c
   then js "\u" ++ hex4 c
   else [c])%N.

(** QuoteJSONString: a surrogate pair is copied, every other code point
    goes through [quote_unit]. *)
Definition quote_code_point (p : jsstring) : jsstring :=
  match p with
  | [c] => quote_unit c
  | _ => p
  end.

Definition QuoteJSONString (s : jsstring) : jsstring :=
  [34%N] ++ flat_map quote_code_point (code_points s) ++ [34%N].

(** SerializeJSONProperty without indentation; [None] is [undefined].  The
    properties of an object are written in the order of the list, which
    stands for the order of its own properties; a property whose value is
    [undefined] is left out, an [undefined] element is written [null]. *)
Fixpoint stringify (v : value) : option jsstring :=
  match v with
  | VUndefined => None
  | VNull => Some (js "null")
  | VBool true => Some (js "true")
  | VBool false => Some (js "false")
  | VNum n => Some (number_to_string n)
  | VStr s => Some (QuoteJSONString s)
  | VArr elems =>
      Some (js "["
            ++ (fix items (first : bool) (l : list value) : jsstring :=
                  match l with
                  | [] => []
                  | x :: r =>
                      (if first then [] else js ",")
                      ++ match stringify x with
                         | Some t => t
                         | None => js "null"
                         end
                      ++ items false r
                  end) true elems
            ++ js "]")
  | VObj props =>
      Some (js "{"
            ++ (fix members (first : bool) (l : list (jsstring * value))
                  : jsstring :=
                  match l with
                  | [] => []
                  | (k, x) :: r =>
                      match stringify x with
                      | Some t =>
                          (if first then [] else js ",")
                          ++ QuoteJSONString k ++ js ":" ++ t
                          ++ members false r
                      | None => members first r
                      end
                  end) true props
            ++ js "}")
  end.

(** [JSON.stringify(v)] as a value. *)
Definition JSON_stringify (v : value) : value :=
  match stringify v with
  | Some t => VStr t
  | None => VUndefined
  end.

(* ================================================================== *)
(** ** [/api/test-single] *)

(** The classification of the single test: that of the batch, but for the
    message of the last branch, and with the identifier as it came in the
    request. *)
Definition classify_single (response : value) (email : value)
  : completion value :=
  (_ <- destructure response (js "code") (js "response") ;;
   let code := prop response (js "code") in
   let message := prop response (js "message") in
   sm <- (if strict_eq_num code 1004
             && strict_eq_str message (js "Error_NoAccount") then
            Normal (js "invalid", js "No account found")
          else if strict_eq_num code 0
                  && strict_eq_str message (js "Error_Success") then
            (r <- to_string (redirect_of response) ;;
             Normal (js "valid", js "Success! Redirect: " ++ r))
          else if strict_eq_num code 1004
                  && strict_eq_str message (js "Error_FailedTooMuch") then
            Normal (js "error", js "Too many failed attempts. IP/Proxy banned")
          else if strict_eq_num code 1004
                  && strict_eq_str message (js "Error_ECaptcha_VerifyFail")
          then
            Normal (js "error", js "Captcha verification failed")
          else
            (t <- to_string (JSON_stringify response) ;;
             Normal (js "unknown", js "Unknown response: " ++ t))) ;;
   Normal (result_object (fst sm) (snd sm) email code message))%js.

(** The object given to [JSON.stringify] by the single test. *)
Definition single_payload (op sign : jsstring) (email token : value)
  : value :=
  VObj [(js "op", VStr op);
        (js "sign", VStr sign);
        (js "params",
         VObj [(js "email", email);
               (js "channel", VStr []);
               (js "e_captcha", token);
               (js "country", VStr [])]);
        (js "lang", VStr (js "en"))].

(** [res.status(500).json({ status: 'error', message, email })] *)
Definition single_error (message : jsstring) (email : value)
  : http_response :=
  {| res_status := 500; res_body := error_object message email |}.

(* ================================================================== *)
(** ** [/api/upload]: the lines of the file *)

Definition newline : code_unit := 10%N.

(** [content.split('\n').map(line => line.trim())
       .filter(line => line.length > 0)] *)
Definition upload_lines (content : jsstring) : list jsstring :=
  filter (fun line => (0 <? List.length line)%nat)
    (map trim (split newline content)).

Declare Scope run_scope.
Delimit Scope run_scope with run.
Notation "x <- c ;; k" := (bind c (fun x => k))
  (at level 61, c at next level, right associativity) : run_scope.

Section MoreHandlers.

Variable World : Type.
Variable send : request -> World -> transport * World.
(** [fs.readFileSync(path, 'utf8')] and [fs.unlinkSync(path)] *)
Variable read_file : value -> World -> completion jsstring * World.
Variable unlink : value -> World -> option exn * World.



(** [app.post('/api/test-single', ...)] on [req.body].  The [catch] reads
    [req.body.email] again: when the body itself is missing, that read
    throws out of the handler. *)
Definition test_single (body : value) : io World http_response :=
  try_catch
    (_ <- lift (destructure body (js "email") (js "req.body")) ;;
     let email := prop body (js "email") in
     let token := prop body (js "token") in
     if js_not email || js_not token then
       ret (bad_request "Email and token are required")
     else
       let op := js "email_code_login" in
       sign <- lift (makeSign email token VUndefined VUndefined VUndefined) ;;
       let payload := single_payload op sign email token in
       response <- round_trip send (make_request payload) ;;
       outcome <- lift (classify_single response email) ;;
       ret {| res_status := 200; res_body := outcome |})%run
    (fun error =>
       (email <- lift (get body (js "email")) ;;
        ret (single_error (exn_message error) email))%run).


End MoreHandlers.



(* ================================================================== *)
(** ** More vocabulary *)

(** A string that does not start, or end, with white space. *)
Definition starts_clean (s : jsstring) : Prop :=
  match s with
  | [] => True
  | c :: _ => is_white_space c = false
  end.

Definition ends_clean (s : jsstring) : Prop := starts_clean (rev s).

(** The record written back as a line. *)
Definition line_of (c : combo) : jsstring :=
  email c ++ [colon] ++ password c.

(** What every step of the batch loop is limited to: a request to the one
    endpoint with the one timeout, a wait of 500 ms. *)
Definition fixed_event (e : event) : Prop :=
  match e with
  | Sent r => exists payload, r = make_request payload
  | Timer ms => ms = 500%Z
  | Written _ _ => False
  end.

(** The outcome pushed for a line that does not parse. *)
Definition malformed (line : jsstring) : value :=
  error_object (js "Invalid combo format") (VStr line).

(** The identifier of an outcome, and the section of the export that lists
    the outcomes of a list. *)
Definition email_text (r : value) : jsstring :=
  match prop r (js "email") with
  | VStr s => s
  | _ => []
  end.

Definition valid_section (valid : list value) : jsstring :=
  match valid with
  | [] => []
  | _ :: _ =>
      js "VALID ACCOUNTS:" ++ nl ++ rule ++ nl
      ++ flat_map (fun r => email_text r ++ nl) valid
  end.

(** A function applied to what a completion returns. *)
Definition cmap {A B} (f : A -> B) (c : completion A) : completion B :=
  match c with
  | Normal a => Normal (f a)
  | Throw e => Throw e
  end.

(** The answer of [/api/batch-check] with these results. *)
Definition batch_ok (results : list value) : http_response :=
  ok [(js "success", VBool true); (js "results", VArr results)].

(** The status of the answer of a handler, when it answers. *)
Definition res_status_of {S} (r : completion http_response * S) : option Z :=
  match fst r with
  | Normal resp => Some (res_status resp)
  | Throw _ => None
  end.

(** The outcome of a line when every round trip fails with [err]. *)
Definition outcome_when_down (err : exn) (line : jsstring) : value :=
  match record_of line with
  | Some c => error_object (exn_message err) (VStr (email c))
  | None => malformed line
  end.

Definition with_status (s : jsstring) (l : list value) : list value :=
  filter (fun r => strict_eq_str (prop r (js "status")) s) l.

(* ================================================================== *)
(** * Facts *)

(** ** The model on known values *)

(** The digest against the test suite of RFC 1321 and at the block
    boundaries, and the encoding of two, three and four bytes. *)
Example md5_empty : md5_hex [] = js "d41d8cd98f00b204e9800998ecf8427e".
Proof. vm_compute. reflexivity. Qed.

Example md5_abc : md5_hex (js "abc") = js "900150983cd24fb0d6963f7d28e17f72".
Proof. vm_compute. reflexivity. Qed.

Example md5_message_digest :
  md5_hex (js "message digest") = js "f96b697d7cb7938d525a2f31aaf161d0".
Proof. vm_compute. reflexivity. Qed.

Example md5_55 :
  md5_hex (repeat 120%N 55) = js "04364420e25c512fd958a70738aa8f72".
Proof. vm_compute. reflexivity. Qed.

Example md5_56 :
  md5_hex (repeat 120%N 56) = js "668a72d5ba17f08e62dabcafad6db14b".
Proof. vm_compute. reflexivity. Qed.

Example md5_64 :
  md5_hex (repeat 120%N 64) = js "c1bb4f81d892b2d57947682aeb252456".
Proof. vm_compute. reflexivity. Qed.

Example md5_120 :
  md5_hex (repeat 120%N 120) = js "fb98667f98096de92620b64f46e1c5b5".
Proof. vm_compute. reflexivity. Qed.

Example utf8_lengths :
  utf8_encode [233; 8364; 55357; 56832]%N
  = [195; 169; 226; 130; 172; 240; 159; 152; 128]%N.
Proof. reflexivity. Qed.

Example md5_utf8 :
  md5_hex [233; 8364; 55357; 56832]%N
  = js "3b07a39fef0ac5d7ef21575e7315a482".
Proof. vm_compute. reflexivity. Qed.

Example makeSign_sample :
  makeSign (VStr (js "a@x.com")) (VStr (js "tok"))
    VUndefined VUndefined VUndefined
  = Normal (js "7b05171092a230037526d6da82ad1c8b").
Proof. vm_compute. reflexivity. Qed.

Example split_demo :
  split colon (js "a::b") = [js "a"; []; js "b"]
  /\ split colon [] = [[]]
  /\ join [colon] [js "a"; []; js "b"] = js "a::b".
Proof. repeat split. Qed.

Example trim_demo :
  trim ([9; 32; 160; 65279]%N ++ js "a b" ++ [10; 13; 8232; 12288]%N)
  = js "a b".
Proof. reflexivity. Qed.

Example to_string_demo :
  to_string (VArr [VNum 1; VNull; VArr [VStr (js "x"); VBool true]; VObj []])
  = Normal (js "1,,x,true,[object Object]")
  /\ to_string (VObj [(js "toString", VNum 1)]) = Throw cannot_convert
  /\ to_string (VNum (-12)) = Normal (js "-12").
Proof. repeat split. Qed.

(** ** Strings *)

Lemma str_eqb_eq (a b : jsstring) : str_eqb a b = true <-> a = b.
Proof.
  revert b; induction a as [|x a IH]; intros [|y b]; simpl;
    try (split; [discriminate | discriminate]); try tauto.
  rewrite andb_true_iff, N.eqb_eq, IH.
  split; [intros [-> ->]; reflexivity | intros H; inversion H; auto].
Qed.

Lemma str_eqb_refl (a : jsstring) : str_eqb a a = true.
Proof. apply str_eqb_eq; reflexivity. Qed.

Lemma strict_eq_num_true (v : value) (n : Z) :
  strict_eq_num v n = true <-> v = VNum n.
Proof.
  destruct v; simpl; try (split; [discriminate | discriminate]).
  rewrite Z.eqb_eq. split; [intros ->; reflexivity | intros H; inversion H; auto].
Qed.

Lemma strict_eq_str_true (v : value) (s : jsstring) :
  strict_eq_str v s = true <-> v = VStr s.
Proof.
  destruct v; simpl; try (split; [discriminate | discriminate]).
  rewrite str_eqb_eq. split; [intros ->; reflexivity | intros H; inversion H; auto].
Qed.

Lemma split_nonempty (sep : code_unit) (s : jsstring) : split sep s <> [].
Proof.
  destruct s as [|c r]; simpl; [discriminate|].
  destruct (N.eqb c sep); [discriminate|].
  destruct (split sep r); discriminate.
Qed.

Lemma hd_split (sep : code_unit) (s : jsstring) :
  hd [] (split sep s) = before_first sep s.
Proof.
  induction s as [|c r IH]; simpl; [reflexivity|].
  destruct (N.eqb c sep); [reflexivity|].
  destruct (split sep r) as [|p ps]; simpl in *; rewrite <- IH; reflexivity.
Qed.

Lemma join_split (sep : code_unit) (s : jsstring) :
  join [sep] (split sep s) = s.
Proof.
  induction s as [|c r IH]; simpl; [reflexivity|].
  destruct (N.eqb c sep) eqn:E.
  - apply N.eqb_eq in E; subst c.
    destruct (split sep r) as [|p ps] eqn:S; [now apply split_nonempty in S|].
    simpl in *. now rewrite IH.
  - destruct (split sep r) as [|p ps] eqn:S; [now apply split_nonempty in S|].
    simpl in *. destruct ps; simpl in *; now rewrite <- IH.
Qed.

Lemma tl_split_some (sep : code_unit) (s rest : jsstring) :
  after_first sep s = Some rest ->
  (2 <= List.length (split sep s))%nat
  /\ join [sep] (tl (split sep s)) = rest.
Proof.
  revert rest; induction s as [|c r IH]; simpl; intros rest H; [discriminate|].
  destruct (N.eqb c sep) eqn:E.
  - inversion H; subst rest. simpl. split; [|apply join_split].
    pose proof (split_nonempty sep r). destruct (split sep r); simpl; [tauto|lia].
  - destruct (IH _ H) as [L J].
    destruct (split sep r) as [|p ps]; simpl in *; [lia|]. split; [lia|exact J].
Qed.

Lemma tl_split_none (sep : code_unit) (s : jsstring) :
  after_first sep s = None -> List.length (split sep s) = 1%nat.
Proof.
  induction s as [|c r IH]; simpl; intros H; [reflexivity|].
  destruct (N.eqb c sep); [discriminate|].
  specialize (IH H). destruct (split sep r) as [|p ps]; simpl in *; [reflexivity|exact IH].
Qed.

(** [parseComboLine] on a string is [record_of]. *)
Lemma parseComboLine_record_of (line : jsstring) :
  parseComboLine (VStr line) = Normal (record_of line).
Proof.
  unfold parseComboLine, record_of, slice1.
  destruct (after_first colon line) as [rest|] eqn:A.
  - destruct (tl_split_some _ _ A) as [L J].
    apply Nat.leb_le in L. rewrite L, J, hd_split. reflexivity.
  - rewrite (tl_split_none _ _ A). reflexivity.
Qed.

(** C3, as amended: a line with a [':'] parses to the record whose
    identifier is the text before the first [':'] and whose secret is
    everything after it, each with the white space at its two ends
    removed; a line without [':'] parses to no record. *)
Theorem parseComboLine_first_colon (line : jsstring) :
  (forall rest, after_first colon line = Some rest ->
     parseComboLine (VStr line)
     = Normal (Some {| email := trim (before_first colon line);
                       password := trim rest |}))
  /\ (after_first colon line = None ->
      parseComboLine (VStr line) = Normal None).
Proof.
  rewrite parseComboLine_record_of. unfold record_of.
  split; [intros rest H | intros H]; rewrite H; reflexivity.
Qed.

Lemma parseComboLine_first_colon_witness :
  parseComboLine (VStr (js "user@x.com:pa:ss"))
  = Normal (Some {| email := js "user@x.com"; password := js "pa:ss" |}).
Proof.
  exact (proj1 (parseComboLine_first_colon (js "user@x.com:pa:ss"))
           (js "pa:ss") eq_refl).
Defined.

(** C3, as stated, fails on a secret that starts with a blank: the text
    after the first [':'] of ["u: p"] is [" p"], the secret is ["p"]. *)
Lemma parseComboLine_secret_not_verbatim :
  after_first colon (js "u: p") = Some (js " p")
  /\ parseComboLine (VStr (js "u: p"))
     = Normal (Some {| email := js "u"; password := js "p" |})
  /\ js "p" <> js " p".
Proof. repeat split; discriminate. Qed.

(** ** The classification *)

Lemma error_object_is_outcome (message identifier : jsstring) :
  is_outcome identifier (error_object message (VStr identifier)).
Proof.
  exists (js "error"), message, []. split; [reflexivity|].
  simpl; tauto.
Qed.

Lemma result_object_is_outcome (status message identifier : jsstring)
  (code serverMessage : value) :
  In status [js "valid"; js "invalid"; js "error"; js "unknown"] ->
  is_outcome identifier
    (result_object status message (VStr identifier) code serverMessage).
Proof.
  intros H. exists status, message,
    [(js "code", code); (js "serverMessage", serverMessage)].
  split; [reflexivity | exact H].
Qed.

Lemma classify_is_outcome (response : value) (identifier : jsstring)
  (r : value) :
  classify response identifier = Normal r -> is_outcome identifier r.
Proof.
  unfold classify, destructure.
  destruct (nullish response); simpl; [discriminate|].
  repeat match goal with
         | |- context [if ?b then _ else _] => destruct b
         | |- context [to_string ?v] => destruct (to_string v)
         end; simpl; intros H; inversion H;
    apply result_object_is_outcome; simpl; tauto.
Qed.

Lemma outcome_of_is_outcome (c : completion value) (identifier : jsstring) :
  (forall r, c = Normal r -> is_outcome identifier r) ->
  is_outcome identifier (outcome_of c identifier).
Proof.
  destruct c; simpl; intros H; [now apply H|apply error_object_is_outcome].
Qed.

Lemma row_tests (response : value) (code : Z) (message : string) :
  strict_eq_num (prop response (js "code")) code
  && strict_eq_str (prop response (js "message")) (js message) = true
  <-> row response code message.
Proof.
  unfold row. now rewrite andb_true_iff, strict_eq_num_true, strict_eq_str_true.
Qed.

Lemma row_nullish (response : value) (code : Z) (message : string) :
  row response code message -> nullish response = false.
Proof. intros [H _]. destruct response; simpl in *; try reflexivity; discriminate. Qed.

Lemma row_functional (response : value) (c1 c2 : Z) (m1 m2 : string) :
  row response c1 m1 -> row response c2 m2 -> js m1 = js m2.
Proof. intros [_ H1] [_ H2]. rewrite H1 in H2. now inversion H2. Qed.

(** The table, for the pure part of an attempt. *)
Lemma classify_follows_table (t : transport) (identifier : jsstring) :
  follows_table t identifier
    (outcome_of (cbind (settle t)
                   (fun response => classify response identifier))
       identifier).
Proof.
  split.
  - intros e H. rewrite H. reflexivity.
  - intros response H code message. rewrite H. simpl.
    unfold classify, destructure. fold code. fold message.
    split; [|split; [|split; [|split; [|split]]]].
    + intros NN. rewrite NN. destruct response; try discriminate NN;
        reflexivity.
    + intros R. rewrite (row_nullish R). simpl.
      apply row_tests in R. fold code in R. fold message in R.
      rewrite R. reflexivity.
    + intros R. rewrite (row_nullish R). simpl.
      destruct (strict_eq_num code 1004
                && strict_eq_str message (js "Error_NoAccount")) eqn:E1.
      { apply row_tests in E1. pose proof (row_functional E1 R). discriminate. }
      apply row_tests in R. fold code in R. fold message in R.
      rewrite R. split.
      * intros e U. rewrite U. reflexivity.
      * intros url U. rewrite U. exists url. split; [reflexivity|].
        intros _. reflexivity.
    + intros R. rewrite (row_nullish R). simpl.
      destruct (strict_eq_num code 1004
                && strict_eq_str message (js "Error_NoAccount")) eqn:E1.
      { apply row_tests in E1. pose proof (row_functional E1 R). discriminate. }
      destruct (strict_eq_num code 0
                && strict_eq_str message (js "Error_Success")) eqn:E2.
      { apply row_tests in E2. pose proof (row_functional E2 R). discriminate. }
      apply row_tests in R. fold code in R. fold message in R.
      rewrite R. reflexivity.
    + intros R. rewrite (row_nullish R). simpl.
      destruct (strict_eq_num code 1004
                && strict_eq_str message (js "Error_NoAccount")) eqn:E1.
      { apply row_tests in E1. pose proof (row_functional E1 R). discriminate. }
      destruct (strict_eq_num code 0
                && strict_eq_str message (js "Error_Success")) eqn:E2.
      { apply row_tests in E2. pose proof (row_functional E2 R). discriminate. }
      destruct (strict_eq_num code 1004
                && strict_eq_str message (js "Error_FailedTooMuch")) eqn:E3.
      { apply row_tests in E3. pose proof (row_functional E3 R). discriminate. }
      apply row_tests in R. fold code in R. fold message in R.
      rewrite R. reflexivity.
    + intros N1 N2 N3 N4 NN. rewrite NN. simpl.
      rewrite <- row_tests in N1, N2, N3, N4.
      fold code in N1, N2, N3, N4. fold message in N1, N2, N3, N4.
      apply not_true_is_false in N1, N2, N3, N4.
      rewrite N1, N2, N3, N4. split; [|split].
      * intros e C. rewrite C. reflexivity.
      * intros c e C M. rewrite C. simpl. rewrite M. reflexivity.
      * intros c m C M. rewrite C. simpl. rewrite M. exists c, m.
        split; [reflexivity|]. split; intros _; reflexivity.
Qed.

(** ** The batch loop *)

Unset Implicit Arguments.

Lemma js_or_token (tok : jsstring) : js_or (VStr tok) (VStr []) = VStr tok.
Proof. destruct tok; reflexivity. Qed.

Lemma makeSign_strings (e t : jsstring) :
  makeSign (VStr e) (VStr t) VUndefined VUndefined VUndefined
  = Normal (md5_hex (signStr e t [] [] (js "email_code_login"))).
Proof. reflexivity. Qed.

Lemma sent_app (a b : list event) : sent (a ++ b) = sent a ++ sent b.
Proof. apply flat_map_app. Qed.

Lemma timers_app (a b : list event) : timers (a ++ b) = timers a ++ timers b.
Proof. apply flat_map_app. Qed.

Lemma turn_events_token (tok : jsstring) (lines : list jsstring) :
  flat_map (turn_events (VStr tok)) lines
  = flat_map (fun c => [Sent (request_for (VStr tok) (sign_of tok c) c);
                        Timer 500])
      (records_of lines).
Proof.
  induction lines as [|line rest IH]; simpl; [reflexivity|].
  unfold turn_events at 1. destruct (record_of line) as [c|]; simpl.
  - now rewrite IH.
  - exact IH.
Qed.

Lemma turn_events_timers (token : value) (lines : list jsstring) :
  timers (flat_map (turn_events token) lines)
  = repeat 500%Z (List.length (records_of lines)).
Proof.
  induction lines as [|line rest IH]; simpl; [reflexivity|].
  rewrite timers_app, IH. unfold turn_events.
  destruct (record_of line) as [c|]; simpl; [|reflexivity].
  destruct (makeSign _ _ _ _ _); reflexivity.
Qed.

Lemma sent_requests (tok : jsstring) (cs : list combo) :
  sent (flat_map (fun c => [Sent (request_for (VStr tok) (sign_of tok c) c);
                            Timer 500]) cs)
  = map (fun c => request_for (VStr tok) (sign_of tok c) c) cs.
Proof. induction cs as [|c cs IH]; simpl; [reflexivity|now rewrite <- IH]. Qed.

Lemma Forall2_nth_error_l {A B} (P : A -> B -> Prop) (l : list A)
  (l' : list B) :
  Forall2 P l l' ->
  forall i a, nth_error l i = Some a ->
  exists b, nth_error l' i = Some b /\ P a b.
Proof.
  induction 1 as [|x y l l' Hxy _ IH]; intros [|i] a E; simpl in *;
    try discriminate.
  - inversion E; subst. eauto.
  - eauto.
Qed.

Section Runs.

Variable World : Type.
Variable send : request -> World -> transport * World.
Variable write_file : jsstring -> jsstring -> World -> option exn * World.

(** The inner [try ... catch], as a function of the answer. *)
Lemma attempt_or_error_eq (parsed : combo) (token : value)
  (st : state World) :
  attempt_or_error send parsed token st
  = match makeSign (VStr (email parsed)) token
            VUndefined VUndefined VUndefined with
    | Throw e =>
        (Normal (error_object (exn_message e) (VStr (email parsed))), st)
    | Normal sign =>
        let r := request_for token sign parsed in
        (Normal (outcome_of
                   (cbind (settle (fst (send r (world st))))
                      (fun response => classify response (email parsed)))
                   (email parsed)),
         {| world := snd (send r (world st));
            log := log st ++ [Sent r] |})
    end.
Proof.
  unfold attempt_or_error, try_catch, attempt, bind, lift, round_trip,
    request_for, ret.
  destruct (makeSign _ _ _ _ _) as [sign|e]; simpl; [|reflexivity].
  destruct (send _ (world st)) as [t w]; simpl.
  destruct (settle t) as [response|e]; simpl; [|reflexivity].
  destruct (classify response (email parsed)); reflexivity.
Qed.

Lemma attempt_outcome (t : transport) (identifier : jsstring) :
  is_outcome identifier
    (outcome_of (cbind (settle t)
                   (fun response => classify response identifier))
       identifier).
Proof.
  apply outcome_of_is_outcome. intros r.
  destruct (settle t) as [response|e]; simpl; [|discriminate].
  apply classify_is_outcome.
Qed.

(** One turn on a string: one more result, about that line. *)
Lemma batch_turn_spec (tokens t0 : value) (acc : list value)
  (line : jsstring) (st : state World) :
  get_index0 tokens = Normal t0 ->
  exists r st',
    batch_turn send tokens acc (VStr line) st = (Normal (acc ++ [r]), st')
    /\ is_outcome (identifier_of line) r
    /\ log st' = log st ++ turn_events (js_or t0 (VStr [])) line.
Proof.
  intros T. unfold batch_turn, bind, lift.
  rewrite parseComboLine_record_of. unfold turn_events, identifier_of.
  destruct (record_of line) as [c|].
  - rewrite T. rewrite attempt_or_error_eq.
    destruct (makeSign _ _ _ _ _) as [sign|e]; simpl.
    + eexists; eexists; split; [reflexivity|]. split.
      * apply attempt_outcome.
      * simpl. now rewrite <- app_assoc.
    + eexists; eexists; split; [reflexivity|]. split.
      * apply error_object_is_outcome.
      * reflexivity.
  - unfold ret. eexists; eexists; split; [reflexivity|]. split.
    + apply error_object_is_outcome.
    + now rewrite app_nil_r.
Qed.

Lemma batch_loop_spec (tokens t0 : value) :
  get_index0 tokens = Normal t0 ->
  forall (lines : list jsstring) (acc : list value) (st : state World),
  exists outs st',
    batch_loop send tokens acc (map VStr lines) st
    = (Normal (acc ++ outs), st')
    /\ Forall2 (fun line r => is_outcome (identifier_of line) r) lines outs
    /\ log st' = log st ++ flat_map (turn_events (js_or t0 (VStr []))) lines.
Proof.
  intros T. induction lines as [|line rest IH]; intros acc st; simpl.
  - exists [], st. rewrite !app_nil_r. repeat split. constructor.
  - destruct (batch_turn_spec tokens t0 acc line st T) as (r & st1 & E & O & L).
    destruct (IH (acc ++ [r]) st1) as (outs & st2 & E2 & O2 & L2).
    exists (r :: outs), st2. unfold bind. rewrite E, E2.
    rewrite <- app_assoc. repeat split.
    + constructor; assumption.
    + rewrite L2, L. now rewrite <- app_assoc.
Qed.

(** The whole handler on a batch of strings with tokens that can be
    indexed. *)
Lemma batch_check_spec (body tokens t0 : value) (lines : list jsstring)
  (st : state World) :
  nullish body = false ->
  prop body (js "batch") = VArr (map VStr lines) ->
  prop body (js "tokens") = tokens ->
  get_index0 tokens = Normal t0 ->
  exists outs st',
    batch_check send body st
    = (Normal (ok [(js "success", VBool true);
                   (js "results", VArr outs)]), st')
    /\ Forall2 (fun line r => is_outcome (identifier_of line) r) lines outs
    /\ log st' = log st ++ flat_map (turn_events (js_or t0 (VStr []))) lines.
Proof.
  intros N B K T.
  destruct (batch_loop_spec tokens t0 T lines [] st) as (outs & st' & E & O & L).
  exists outs, st'. split; [|split; assumption].
  unfold batch_check, try_catch, bind, lift, destructure, ret.
  rewrite N, B, K. simpl. rewrite E. reflexivity.
Qed.

(** C1, as amended: the classification is total: whatever the token
    and whatever the remote end does, the attempt ends in one outcome
    for the record, whose status is one of [valid], [invalid], [error],
    [unknown], and nothing is thrown.  A token that cannot be signed
    gives [error] and nothing is sent.  Once the request is signed it
    is sent, and the outcome follows the table: code 1004 with
    [Error_NoAccount] gives [invalid]; code 1004 with
    [Error_FailedTooMuch], code 1004 with [Error_ECaptcha_VerifyFail]
    and a transport failure all give the one status [error], told
    apart by the message only (the failure reason for a transport
    failure); code 0 with [Error_Success] gives [valid], the message
    showing the redirect found in the answer or in its [data] field,
    when that redirect can be turned into text, and [error] with the
    message of the [TypeError] when it cannot; any other code and
    message of an answer that is not [null] give [unknown] with both
    echoed when both can be turned into text, and [error] when one
    cannot; the answer [null] gives [error].  The text shown for the
    redirect, the code and the message is the one of [to_string] when
    their numbers are safe integers, and the request sent is the one
    of the record, the token and the signature when the numbers of the
    token are. *)
Theorem classification_table (parsed : combo) (token : value)
  (st : state World) :
  exists outcome st',
    attempt_or_error send parsed token st = (Normal outcome, st')
    /\ is_outcome (email parsed) outcome
    /\ (forall e,
          makeSign (VStr (email parsed)) token
            VUndefined VUndefined VUndefined = Throw e ->
          st' = st
          /\ outcome = error_object (exn_message e) (VStr (email parsed)))
    /\ forall sign,
         makeSign (VStr (email parsed)) token
           VUndefined VUndefined VUndefined = Normal sign ->
         exists r,
           st' = {| world := snd (send r (world st));
                    log := log st ++ [Sent r] |}
           /\ (safe_numbers token = true ->
               r = request_for token sign parsed)
           /\ follows_table (fst (send r (world st))) (email parsed) outcome.
Proof.
  rewrite attempt_or_error_eq.
  destruct (makeSign _ _ _ _ _) as [sign|e].
  - eexists; eexists; split; [reflexivity|]. split; [|split].
    + apply attempt_outcome.
    + intros e E. discriminate E.
    + intros sign' E. inversion E; subst sign'.
      exists (request_for token sign parsed).
      split; [reflexivity|]. split; [intros _; reflexivity|].
      apply classify_follows_table.
  - eexists; eexists; split; [reflexivity|]. split; [|split].
    + apply error_object_is_outcome.
    + intros e' E. inversion E; subst e'. split; reflexivity.
    + intros sign' E. discriminate.
Qed.

(** C2: a batch of text lines with a non-empty token list is answered
    with success and a result list that has exactly one outcome per
    line, the outcome at an index being the one of the line at that
    index; nothing a line, the remote end or the answer does turns the
    answer into an error. *)
Theorem batch_check_one_outcome_per_record (body t0 : value)
  (more : list value) (lines : list jsstring) (st : state World) :
  nullish body = false ->
  prop body (js "batch") = VArr (map VStr lines) ->
  prop body (js "tokens") = VArr (t0 :: more) ->
  exists outs st',
    batch_check send body st
    = (Normal (ok [(js "success", VBool true);
                   (js "results", VArr outs)]), st')
    /\ List.length outs = List.length lines
    /\ forall i line, nth_error lines i = Some line ->
         exists r, nth_error outs i = Some r
                   /\ is_outcome (identifier_of line) r.
Proof.
  intros N B K.
  destruct (batch_check_spec body (VArr (t0 :: more)) t0 lines st
              N B K eq_refl) as (outs & st' & E & O & _).
  exists outs, st'. split; [exact E|]. split.
  - symmetry. exact (Forall2_length O).
  - intros i line H. exact (Forall2_nth_error_l _ _ _ O i line H).
Qed.

(** C4, as amended: [/api/start-check] answers a request whose record
    list or token list is absent or empty with status 400 and the error
    "Combos and tokens are required", and does nothing else: no
    outcome, no network call.  [/api/batch-check] makes no such test:
    an empty batch is answered with success and an empty result list,
    again without a network call, and with an empty token list the
    batch runs: one outcome per line, one request per well-formed
    record, made with the empty string as token. *)
Theorem start_check_rejects_empty (now : Z) (body : value)
  (st : state World) :
  nullish body = false ->
  (absent_or_empty (prop body (js "combos")) = true
   \/ absent_or_empty (prop body (js "tokens")) = true ->
   start_check World now body st
   = (Normal (bad_request "Combos and tokens are required"), st))
  /\ (prop body (js "batch") = VArr [] ->
      batch_check send body st
      = (Normal (ok [(js "success", VBool true);
                     (js "results", VArr [])]), st))
  /\ (forall lines,
        prop body (js "batch") = VArr (map VStr lines) ->
        prop body (js "tokens") = VArr [] ->
        exists outs st',
          batch_check send body st
          = (Normal (ok [(js "success", VBool true);
                         (js "results", VArr outs)]), st')
          /\ List.length outs = List.length lines
          /\ List.length (sent (log st'))
             = (List.length (sent (log st))
                + List.length (records_of lines))%nat
          /\ sent (log st')
             = sent (log st)
               ++ map (fun c => request_for (VStr []) (sign_of [] c) c)
                    (records_of lines)).
Proof.
  intros N. split; [|split].
  - intros H. unfold start_check, try_catch, bind, lift, destructure, ret.
    rewrite N. simpl.
    destruct H as [H|H]; rewrite H; [reflexivity|].
    now rewrite orb_true_r.
  - intros B. unfold batch_check, try_catch, bind, lift, destructure, ret.
    rewrite N, B. reflexivity.
  - intros lines B K.
    destruct (batch_check_spec body (VArr []) VUndefined lines st
                N B K eq_refl) as (outs & st' & E & O & L).
    exists outs, st'. split; [exact E|]. split; [|split].
    + symmetry. exact (Forall2_length O).
    + rewrite L, sent_app, length_app.
      change (js_or VUndefined (VStr [])) with (VStr []).
      now rewrite turn_events_token, sent_requests, length_map.
    + rewrite L, sent_app.
      change (js_or VUndefined (VStr [])) with (VStr []).
      now rewrite turn_events_token, sent_requests.
Qed.

(** C7: with a token list that starts with the token [tok], the
    requests of a batch are, in input order, those of its well-formed
    records, each signed with [tok] and carrying [tok] as [e_captcha],
    whatever the position of the record. *)
Theorem batch_check_first_token (body : value) (tok : jsstring)
  (more : list value) (lines : list jsstring) (st : state World) :
  nullish body = false ->
  prop body (js "batch") = VArr (map VStr lines) ->
  prop body (js "tokens") = VArr (VStr tok :: more) ->
  exists resp st',
    batch_check send body st = (Normal resp, st')
    /\ sent (log st')
       = sent (log st)
         ++ map (fun c => request_for (VStr tok) (sign_of tok c) c)
              (records_of lines).
Proof.
  intros N B K.
  destruct (batch_check_spec body (VArr (VStr tok :: more)) (VStr tok)
              lines st N B K eq_refl) as (outs & st' & E & _ & L).
  eexists; exists st'. split; [exact E|].
  rewrite L, sent_app, js_or_token, turn_events_token, sent_requests.
  reflexivity.
Qed.

(** C8, as amended: the batch loop waits a fixed 500 ms after the
    attempt of every well-formed record, the last one included, and
    not after a malformed line, whatever the request says about
    delays; with a string token the log is, record by record, the
    request followed by that wait.  1000 ms is the value of
    [delayBetweenRequests] in the settings [/api/start-check] puts in
    the worker data when the caller gives none. *)
Theorem batch_check_fixed_delay (body tokens t0 : value)
  (lines : list jsstring) (st : state World) :
  nullish body = false ->
  prop body (js "batch") = VArr (map VStr lines) ->
  prop body (js "tokens") = tokens ->
  get_index0 tokens = Normal t0 ->
  (exists resp st',
     batch_check send body st = (Normal resp, st')
     /\ timers (log st')
        = timers (log st) ++ repeat 500%Z (List.length (records_of lines))
     /\ forall tok, js_or t0 (VStr []) = VStr tok ->
          log st'
          = log st
            ++ flat_map
                 (fun c => [Sent (request_for (VStr tok) (sign_of tok c) c);
                            Timer 500])
                 (records_of lines))
  /\ forall combos tokens' proxies settings,
       to_boolean settings = false ->
       prop (prop (workerData combos tokens' proxies settings)
               (js "settings"))
         (js "delayBetweenRequests")
       = VNum 1000.
Proof.
  intros N B K T. split.
  - destruct (batch_check_spec body tokens t0 lines st N B K T)
      as (outs & st' & E & _ & L).
    eexists; exists st'. split; [exact E|]. split.
    + now rewrite L, timers_app, turn_events_timers.
    + intros tok J. now rewrite L, J, turn_events_token.
  - intros combos tokens' proxies settings S.
    unfold workerData, js_or. rewrite S. reflexivity.
Qed.

Lemma after_first_in (line : jsstring) :
  In colon line -> exists rest, after_first colon line = Some rest.
Proof.
  induction line as [|c r IH]; simpl; [tauto|].
  intros [H|H].
  - subst c. rewrite N.eqb_refl. eauto.
  - destruct (N.eqb c colon); eauto.
Qed.

(** C9: the line [":"] parses to the record with an empty identifier
    and an empty secret; every line that contains a [':'] parses to a
    record; and a batch made of such a line sends the request signed
    for that record, then waits, instead of recording a malformed
    line. *)
Theorem separator_line_is_attempted :
  parseComboLine (VStr (js ":"))
  = Normal (Some {| email := []; password := [] |})
  /\ (forall line, In colon line ->
      exists c, parseComboLine (VStr line) = Normal (Some c))
  /\ (forall body tokens t0 tok line st,
        nullish body = false ->
        prop body (js "batch") = VArr [VStr line] ->
        prop body (js "tokens") = tokens ->
        get_index0 tokens = Normal t0 ->
        js_or t0 (VStr []) = VStr tok ->
        In colon line ->
        exists c r st',
          record_of line = Some c
          /\ batch_check send body st
             = (Normal (ok [(js "success", VBool true);
                            (js "results", VArr [r])]), st')
          /\ log st'
             = log st ++ [Sent (request_for (VStr tok) (sign_of tok c) c);
                          Timer 500]).
Proof.
  split; [reflexivity|]. split.
  - intros line H. destruct (after_first_in line H) as [rest A].
    rewrite parseComboLine_record_of. unfold record_of. rewrite A. eauto.
  - intros body tokens t0 tok line st N B K T J H.
    destruct (after_first_in line H) as [rest A].
    destruct (batch_check_spec body tokens t0 [line] st N B K T)
      as (outs & st' & E & O & L).
    inversion O as [|x r l l' _ O' ]; subst. inversion O'; subst.
    eexists; exists r, st'. split; [|split; [exact E|]].
    + unfold record_of. rewrite A. reflexivity.
    + rewrite L, J. simpl. unfold turn_events, record_of. rewrite A.
      rewrite app_nil_r. reflexivity.
Qed.

(** C10: with an empty token list the batch is not rejected: it is
    answered with success and one outcome per line, and for every
    well-formed record the request is signed and sent with the empty
    string as token. *)
Theorem batch_check_empty_token_list (body : value)
  (lines : list jsstring) (st : state World) :
  nullish body = false ->
  prop body (js "batch") = VArr (map VStr lines) ->
  prop body (js "tokens") = VArr [] ->
  exists outs st',
    batch_check send body st
    = (Normal (ok [(js "success", VBool true);
                   (js "results", VArr outs)]), st')
    /\ List.length outs = List.length lines
    /\ log st'
       = log st
         ++ flat_map
              (fun c => [Sent (request_for (VStr []) (sign_of [] c) c);
                         Timer 500])
              (records_of lines).
Proof.
  intros N B K.
  destruct (batch_check_spec body (VArr []) VUndefined lines st
              N B K eq_refl) as (outs & st' & E & O & L).
  exists outs, st'. split; [exact E|]. split.
  - symmetry. exact (Forall2_length O).
  - rewrite L. change (js_or VUndefined (VStr [])) with (VStr []).
    now rewrite turn_events_token.
Qed.

(** ** The summary *)

Lemma filter_status_outcomes (s : jsstring) (l : list value) :
  Forall an_outcome l ->
  filter_status s l
  = Normal (filter (fun r => strict_eq_str (prop r (js "status")) s) l).
Proof.
  induction 1 as [|r l H _ IH]; simpl; [reflexivity|].
  destruct H as (id & status & message & rest & -> & _).
  unfold get. cbn [nullish cbind]. rewrite IH. reflexivity.
Qed.

Lemma filter_count (s : jsstring) (l : list value) :
  List.length (filter (fun r => strict_eq_str (prop r (js "status")) s) l)
  = count_status s l.
Proof.
  induction l as [|r l IH]; simpl; [reflexivity|].
  destruct (strict_eq_str _ s); simpl; congruence.
Qed.

Lemma filter_outcomes (f : value -> bool) (l : list value) :
  Forall an_outcome l -> Forall an_outcome (filter f l).
Proof.
  rewrite !Forall_forall. intros H r I. apply filter_In in I. now apply H.
Qed.

Lemma email_lines_outcomes (l : list value) :
  Forall an_outcome l -> exists lines, email_lines l = Normal lines.
Proof.
  induction 1 as [|r l H _ [lines IH]]; simpl; [eauto|].
  destruct H as (id & status & message & rest & -> & _).
  cbn. rewrite IH. cbn. eauto.
Qed.

Lemma results_content_header (locale : jsstring) (l : list value) :
  Forall an_outcome l ->
  exists tail,
    results_content locale (VArr l)
      (filter (fun r => strict_eq_str (prop r (js "status")) (js "valid")) l)
    = Normal (header locale (List.length l)
                (count_status (js "valid") l)
                (count_status (js "invalid") l)
                (count_status (js "error") l) ++ tail).
Proof.
  intros H. unfold results_content, results_filter.
  change (to_string (prop (VArr l) (js "length")))
    with (Normal (nat_to_string (List.length l))).
  cbn [cbind]. rewrite !(filter_status_outcomes _ l H). cbn [cbind].
  rewrite !filter_count.
  destruct (0 <? count_status (js "valid") l)%nat.
  - destruct (email_lines_outcomes _ (filter_outcomes
      (fun r => strict_eq_str (prop r (js "status")) (js "valid")) l H))
      as [lines E].
    rewrite E. cbn [cbind]. eexists. unfold header.
    rewrite <- !app_assoc. reflexivity.
  - exists []. now rewrite app_nil_r.
Qed.

Lemma count_status_total (l : list value) :
  Forall an_outcome l ->
  List.length l
  = (count_status (js "valid") l + count_status (js "invalid") l
     + count_status (js "error") l + count_status (js "unknown") l)%nat.
Proof.
  induction 1 as [|r l H _ IH]; [reflexivity|].
  destruct H as (id & status & message & rest & -> & S).
  cbn [count_status List.length]. rewrite IH.
  change (prop (VObj ((js "status", VStr status)
                      :: (js "message", VStr message)
                      :: (js "email", VStr id) :: rest)) (js "status"))
    with (VStr status).
  simpl in S. destruct S as [<-|[<-|[<-|[<-|[]]]]]; cbn; lia.
Qed.

Lemma not_absent_or_empty (l : list value) :
  l <> [] -> absent_or_empty (VArr l) = false.
Proof. destruct l; [tauto|reflexivity]. Qed.

(** C5: the export written for a list of outcomes starts with a header
    whose total is the length of the list and whose counts of valid,
    invalid and error outcomes are the numbers of outcomes of the list
    with that status: the summary is computed from the list it is
    given, which may be the list of a whole run or any part of it.  The
    fourth status has no line of its own: the outcomes with status
    [unknown] are those of the total that the three counts leave. *)
Theorem save_results_summary (iso locale : jsstring) (body : value)
  (l : list value) (st : state World) :
  nullish body = false ->
  prop body (js "results") = VArr l ->
  l <> [] ->
  Forall an_outcome l ->
  exists tail resp st',
    save_results write_file iso locale body st = (Normal resp, st')
    /\ log st'
       = log st
         ++ [Written (js "results_" ++ dashes iso ++ js ".txt")
               (header locale (List.length l)
                  (count_status (js "valid") l)
                  (count_status (js "invalid") l)
                  (count_status (js "error") l) ++ tail)]
    /\ List.length l
       = (count_status (js "valid") l + count_status (js "invalid") l
          + count_status (js "error") l
          + count_status (js "unknown") l)%nat.
Proof.
  intros N R NE O.
  destruct (results_content_header locale l O) as [tail C].
  exists tail.
  cut (exists resp st',
         save_results write_file iso locale body st = (Normal resp, st')
         /\ log st'
            = log st
              ++ [Written (js "results_" ++ dashes iso ++ js ".txt")
                    (header locale (List.length l)
                       (count_status (js "valid") l)
                       (count_status (js "invalid") l)
                       (count_status (js "error") l) ++ tail)]).
  { intros (resp & st' & E & L). exists resp, st'.
    split; [exact E|]. split; [exact L|]. apply count_status_total, O. }
  unfold save_results, try_catch, bind, lift, destructure, writeFileSync,
    ret.
  rewrite N, R, (not_absent_or_empty l NE).
  unfold results_filter at 1. rewrite (filter_status_outcomes _ l O), C.
  destruct (write_file _ _ (world st)) as [[e|] w];
    eexists; eexists; split; reflexivity.
Qed.

End Runs.

(** ** The signature *)

Ltac peel H :=
  repeat apply app_inv_tail in H; repeat apply app_inv_head in H.

(** C6, as stated, fails: two identifiers that differ, each a surrogate
    without its partner, are both digested as U+FFFD and get the same
    signature, the other four arguments being equal. *)
Lemma makeSign_collision :
  makeSign (VStr [55296%N]) (VStr (js "T")) (VStr []) (VStr [])
    (VStr (js "email_code_login"))
  = makeSign (VStr [56320%N]) (VStr (js "T")) (VStr []) (VStr [])
      (VStr (js "email_code_login"))
  /\ [55296%N] <> [56320%N].
Proof. split; [vm_compute; reflexivity | discriminate]. Qed.

(** A digest of 128 bits cannot tell all identifiers apart, even plain
    ones: the signatures are strings of 32 hexadecimal digits, of which
    there are finitely many. *)

Lemma nibble_digit (n : N) : (n < 16)%N -> In (hex_digit n) hex_digits.
Proof. intros H. apply in_map. simpl. lia. Qed.

Lemma hex_in_all_hex (bytes : list N) :
  Forall (fun b => (b < 256)%N) bytes ->
  In (hex bytes) (all_hex (2 * List.length bytes)).
Proof.
  induction 1 as [|b bytes B _ IH]; [simpl; tauto|].
  replace (2 * List.length (b :: bytes))%nat
    with (S (S (2 * List.length bytes))) by (simpl; lia).
  change (hex (b :: bytes))
    with (hex_digit (N.shiftr b 4) :: hex_digit (N.land b 15) :: hex bytes).
  cbn [all_hex]. apply in_flat_map.
  exists (hex_digit (N.shiftr b 4)). split.
  - apply nibble_digit. rewrite N.shiftr_div_pow2.
    apply N.Div0.div_lt_upper_bound. exact B.
  - apply in_map. apply in_flat_map.
    exists (hex_digit (N.land b 15)). split.
    + apply nibble_digit. change 15%N with (N.ones 4). rewrite N.land_ones.
      apply N.mod_lt. discriminate.
    + apply in_map. exact IH.
Qed.

Lemma le_bytes_small (k : nat) (x : N) :
  Forall (fun b => (b < 256)%N) (MD5.le_bytes k x).
Proof.
  revert x; induction k as [|k IH]; intros x; simpl; constructor; [|apply IH].
  change 255%N with (N.ones 8). rewrite N.land_ones.
  apply N.mod_lt. discriminate.
Qed.

Lemma le_bytes_length (k : nat) (x : N) : List.length (MD5.le_bytes k x) = k.
Proof. revert x; induction k as [|k IH]; intros x; simpl; [|rewrite IH]; reflexivity. Qed.

Lemma digest_bytes (msg : list N) :
  List.length (MD5.digest msg) = 16%nat
  /\ Forall (fun b => (b < 256)%N) (MD5.digest msg).
Proof.
  unfold MD5.digest.
  generalize (fold_left MD5.block (MD5.blocks msg) MD5.init). intros r.
  split.
  - rewrite !length_app, !le_bytes_length. reflexivity.
  - apply Forall_app; split; [apply le_bytes_small|].
    apply Forall_app; split; [apply le_bytes_small|].
    apply Forall_app; split; apply le_bytes_small.
Qed.

Lemma md5_hex_in_all_hex (s : jsstring) : In (md5_hex s) (all_hex 32).
Proof.
  unfold md5_hex.
  destruct (digest_bytes (utf8_encode s)) as [L F].
  pose proof (hex_in_all_hex _ F) as H. rewrite L in H. exact H.
Qed.

Lemma no_injection_into_list {A} (f : nat -> A) (l : list A) :
  (forall n, In (f n) l) -> ~ (forall i j, f i = f j -> i = j).
Proof.
  intros H Inj.
  assert (D : forall m, NoDup (map f (seq 0 m))).
  { intros m. generalize 0%nat.
    induction m as [|m IH]; intros start; simpl; constructor; [|apply IH].
    rewrite in_map_iff. intros (j & E & I). apply Inj in E. subst j.
    apply in_seq in I. lia. }
  assert (I : incl (map f (seq 0 (S (List.length l)))) l).
  { intros x X. apply in_map_iff in X. destruct X as (n & <- & _). apply H. }
  pose proof (@NoDup_incl_length A _ l (D (S (List.length l))) I) as B.
  rewrite length_map, length_seq in B. lia.
Qed.

Lemma makeSign_not_injective (token : jsstring) :
  ~ (forall i j,
       makeSign (VStr (a_times i)) (VStr token) VUndefined VUndefined
         VUndefined
       = makeSign (VStr (a_times j)) (VStr token) VUndefined VUndefined
           VUndefined ->
       a_times i = a_times j).
Proof.
  intros Inj.
  apply (no_injection_into_list
           (fun n => md5_hex (signStr (a_times n) token [] []
                                (js "email_code_login")))
           (all_hex 32)).
  - intros n. apply md5_hex_in_all_hex.
  - intros i j E.
    assert (R : a_times i = a_times j).
    { apply Inj. rewrite !makeSign_strings. now rewrite E. }
    apply (f_equal (@List.length _)) in R.
    unfold a_times in R. now rewrite !repeat_length in R.
Qed.

(** ** UTF-8 keeps well-formed strings apart *)

Ltac dlia := zify; Z.to_euclidean_division_equations; lia.

Lemma lor_add (a : N) (n : nat) :
  forallb (fun x => N.lor a x =? a + x)%N (map N.of_nat (seq 0 n)) = true ->
  forall x, (x < N.of_nat n)%N -> N.lor a x = (a + x)%N.
Proof.
  intros C x H. rewrite forallb_forall in C. apply N.eqb_eq, C.
  apply in_map_iff. exists (N.to_nat x).
  split; [apply N2Nat.id | apply in_seq; lia].
Qed.

Lemma utf8_of_code_point_arith (p : N) :
  (p < 2097152)%N ->
  utf8_of_code_point p
  = (if p <? 128 then [p]
     else if p <? 2048 then [192 + p / 64; 128 + p mod 64]
     else if p <? 65536 then
       [224 + p / 4096; 128 + (p / 64) mod 64; 128 + p mod 64]
     else
       [240 + p / 262144; 128 + (p / 4096) mod 64;
        128 + (p / 64) mod 64; 128 + p mod 64])%N.
Proof.
  intros B. unfold utf8_of_code_point.
  rewrite !N.shiftr_div_pow2. change 63%N with (N.ones 6).
  rewrite !N.land_ones.
  change (2 ^ 6)%N with 64%N. change (2 ^ 12)%N with 4096%N.
  change (2 ^ 18)%N with 262144%N.
  assert (M : forall x, (x mod 64 < N.of_nat 64)%N)
    by (intros x; apply N.mod_lt; discriminate).
  rewrite !(lor_add 128 64 eq_refl) by apply M.
  destruct (p <? 128)%N eqn:E1; [reflexivity|].
  destruct (p <? 2048)%N eqn:E2.
  { apply N.ltb_lt in E2.
    rewrite (lor_add 192 32 eq_refl); [reflexivity|].
    apply N.Div0.div_lt_upper_bound. exact E2. }
  destruct (p <? 65536)%N eqn:E3.
  { apply N.ltb_lt in E3.
    rewrite (lor_add 224 16 eq_refl); [reflexivity|].
    apply N.Div0.div_lt_upper_bound. exact E3. }
  rewrite (lor_add 240 8 eq_refl); [reflexivity|].
  apply N.Div0.div_lt_upper_bound. exact B.
Qed.

Lemma utf8_of_code_point_nonempty (p : N) : utf8_of_code_point p <> [].
Proof.
  unfold utf8_of_code_point.
  destruct (p <? 128)%N; [discriminate|].
  destruct (p <? 2048)%N; [discriminate|].
  destruct (p <? 65536)%N; discriminate.
Qed.

Lemma cons_eq {A} (a b : A) (l l' : list A) :
  a :: l = b :: l' -> a = b /\ l = l'.
Proof. intros H. inversion H. split; reflexivity. Qed.

Ltac heads H :=
  repeat (let E := fresh "E" in
          apply cons_eq in H; destruct H as [E H]).

(** A number below 2^24 from its four groups of bits. *)
Lemma four_parts (p : N) :
  p = (262144 * (p / 262144) + 4096 * ((p / 4096) mod 64)
       + 64 * ((p / 64) mod 64) + p mod 64)%N.
Proof.
  pose proof (N.div_mod' p 64) as A.
  pose proof (N.div_mod' (p / 64) 64) as B.
  pose proof (N.div_mod' (p / 4096) 64) as C.
  rewrite N.Div0.div_div in B. rewrite N.Div0.div_div in C.
  change (64 * 64)%N with 4096%N in B.
  change (4096 * 64)%N with 262144%N in C.
  revert A B C.
  generalize (p / 262144)%N (p / 4096)%N (p / 64)%N (p mod 64)%N
    ((p / 64) mod 64)%N ((p / 4096) mod 64)%N.
  intros. lia.
Qed.

Lemma two_parts (p : N) : p = (64 * (p / 64) + p mod 64)%N.
Proof. apply N.div_mod'. Qed.

Lemma three_parts (p : N) :
  p = (4096 * (p / 4096) + 64 * ((p / 64) mod 64) + p mod 64)%N.
Proof.
  pose proof (N.div_mod' p 64) as A.
  pose proof (N.div_mod' (p / 64) 64) as B.
  rewrite N.Div0.div_div in B. change (64 * 64)%N with 4096%N in B.
  revert A B.
  generalize (p / 4096)%N (p / 64)%N (p mod 64)%N ((p / 64) mod 64)%N.
  intros. lia.
Qed.

Ltac same_parts parts p q :=
  repeat match goal with
         | E : (_ + _ = _ + _)%N |- _ => apply N.add_cancel_l in E
         end;
  rewrite (parts p), (parts q); congruence.

(** The encoding of a code point is a prefix code. *)
Lemma utf8_of_code_point_inj (p q : N) (x y : list N) :
  (p < 1114112)%N -> (q < 1114112)%N ->
  utf8_of_code_point p ++ x = utf8_of_code_point q ++ y ->
  p = q /\ x = y.
Proof.
  intros P Q.
  rewrite !utf8_of_code_point_arith by lia.
  destruct (p <? 128)%N eqn:P1; [apply N.ltb_lt in P1 | apply N.ltb_ge in P1];
    [|destruct (p <? 2048)%N eqn:P2;
        [apply N.ltb_lt in P2 | apply N.ltb_ge in P2];
        [|destruct (p <? 65536)%N eqn:P3;
            [apply N.ltb_lt in P3 | apply N.ltb_ge in P3]]];
    (destruct (q <? 128)%N eqn:Q1;
       [apply N.ltb_lt in Q1 | apply N.ltb_ge in Q1];
       [|destruct (q <? 2048)%N eqn:Q2;
           [apply N.ltb_lt in Q2 | apply N.ltb_ge in Q2];
           [|destruct (q <? 65536)%N eqn:Q3;
               [apply N.ltb_lt in Q3 | apply N.ltb_ge in Q3]]]);
    cbn [app]; intros H.
  (* one byte *)
  - heads H. split; assumption.
  - exfalso. apply cons_eq in H. destruct H as [E _]. dlia.
  - exfalso. apply cons_eq in H. destruct H as [E _]. dlia.
  - exfalso. apply cons_eq in H. destruct H as [E _]. dlia.
  (* two bytes *)
  - exfalso. apply cons_eq in H. destruct H as [E _]. dlia.
  - heads H. split; [same_parts two_parts p q | exact H].
  - exfalso. apply cons_eq in H. destruct H as [E _]. dlia.
  - exfalso. apply cons_eq in H. destruct H as [E _]. dlia.
  (* three bytes *)
  - exfalso. apply cons_eq in H. destruct H as [E _]. dlia.
  - exfalso. apply cons_eq in H. destruct H as [E _]. dlia.
  - heads H. split; [same_parts three_parts p q | exact H].
  - exfalso. apply cons_eq in H. destruct H as [E _]. dlia.
  (* four bytes *)
  - exfalso. apply cons_eq in H. destruct H as [E _]. dlia.
  - exfalso. apply cons_eq in H. destruct H as [E _]. dlia.
  - exfalso. apply cons_eq in H. destruct H as [E _]. dlia.
  - heads H. split; [same_parts four_parts p q | exact H].
Qed.

(** The first code point of a well-formed string and the rest. *)
Lemma well_formed_head (s : jsstring) :
  well_formed s = true -> s <> [] ->
  exists p rest,
    s = units_of p ++ rest
    /\ well_formed rest = true
    /\ (p < 1114112)%N
    /\ utf8_encode s = utf8_of_code_point p ++ utf8_encode rest
    /\ (List.length rest < List.length s)%nat.
Proof.
  destruct s as [|c r]; [tauto|]. intros W _.
  cbn [well_formed utf8_encode] in *.
  destruct (is_high_surrogate c) eqn:Hc.
  - destruct r as [|d r']; [discriminate|].
    apply andb_true_iff in W. destruct W as [Ld W]. rewrite Ld.
    unfold is_high_surrogate, is_low_surrogate in *.
    apply andb_true_iff in Hc, Ld. rewrite !N.leb_le in Hc, Ld.
    exists (65536 + (c - 55296) * 1024 + (d - 56320))%N, r'.
    repeat split; [|exact W|lia|simpl; lia].
    unfold units_of.
    replace (65536 + (c - 55296) * 1024 + (d - 56320) <? 65536)%N
      with false by (symmetry; apply N.ltb_ge; lia).
    cbn [app]. f_equal; [|f_equal]; dlia.
  - apply andb_true_iff in W. destruct W as [W Wr].
    apply andb_true_iff in W. destruct W as [Lc Bc].
    apply negb_true_iff in Lc. rewrite Lc.
    exists c, r. unfold units_of. rewrite Bc. apply N.ltb_lt in Bc.
    repeat split; [exact Wr|lia|simpl; lia].
Qed.

Lemma utf8_encode_empty (s : jsstring) :
  well_formed s = true -> utf8_encode s = [] -> s = [].
Proof.
  intros W E. destruct s as [|c r]; [reflexivity|]. exfalso.
  destruct (well_formed_head (c :: r) W) as (p & rest & _ & _ & _ & U & _);
    [discriminate|].
  rewrite U in E. apply app_eq_nil in E.
  exact (utf8_of_code_point_nonempty p (proj1 E)).
Qed.

(** Two well-formed strings with the same UTF-8 bytes are the same. *)
Lemma utf8_encode_inj (a b : jsstring) :
  well_formed a = true -> well_formed b = true ->
  utf8_encode a = utf8_encode b -> a = b.
Proof.
  remember (List.length a) as n eqn:L.
  assert (B : (List.length a <= n)%nat) by lia. clear L.
  revert a b B. induction n as [|n IH]; intros a b B Wa Wb E.
  - destruct a; [|simpl in B; lia].
    symmetry. apply utf8_encode_empty; [exact Wb|]. now rewrite <- E.
  - destruct a as [|c r].
    { symmetry. apply utf8_encode_empty; [exact Wb|]. now rewrite <- E. }
    destruct (well_formed_head (c :: r) Wa)
      as (p & ra & Sa & Wra & P & Ua & La); [discriminate|].
    destruct b as [|c' r'].
    { apply utf8_encode_empty in Wa; [discriminate|exact E]. }
    destruct (well_formed_head (c' :: r') Wb)
      as (q & rb & Sb & Wrb & Q & Ub & _); [discriminate|].
    rewrite Ua, Ub in E.
    destruct (utf8_of_code_point_inj p q _ _ P Q E) as [-> E'].
    rewrite Sa, Sb. f_equal. apply IH; [lia|assumption..].
Qed.

Lemma well_formed_app (a b : jsstring) :
  well_formed a = true -> well_formed b = true ->
  well_formed (a ++ b) = true.
Proof.
  intros Wa Wb.
  remember (List.length a) as n eqn:L.
  assert (B : (List.length a <= n)%nat) by lia. clear L.
  revert a B Wa. induction n as [|n IH]; intros a B Wa.
  - destruct a; [exact Wb|simpl in B; lia].
  - destruct a as [|c r]; [exact Wb|].
    cbn [well_formed app] in *.
    destruct (is_high_surrogate c).
    + destruct r as [|d r']; [discriminate|].
      apply andb_true_iff in Wa. destruct Wa as [Ld W].
      cbn [app]. rewrite Ld. cbn [andb]. apply IH; [simpl in B; lia|exact W].
    + apply andb_true_iff in Wa. destruct Wa as [W Wr].
      rewrite W. cbn [andb]. apply IH; [simpl in B; lia|exact Wr].
Qed.

Lemma signStr_well_formed (email token channel country op : jsstring) :
  well_formed email = true -> well_formed token = true ->
  well_formed channel = true -> well_formed country = true ->
  well_formed op = true ->
  well_formed (signStr email token channel country op) = true.
Proof.
  intros. unfold signStr.
  repeat (apply well_formed_app; [first [assumption | reflexivity]|]).
  assumption.
Qed.

(** C6, as amended: on string arguments [makeSign] never throws and its
    result is a function of the five arguments alone, the MD5 digest in
    hexadecimal of the UTF-8 bytes of the canonical string; changing
    exactly one argument, the others fixed, always changes the canonical
    string, and two canonical strings built from arguments without an
    unpaired surrogate are digested from different bytes unless they are
    the same string.  (That the digest of different bytes differs is not
    claimed.) *)
Theorem makeSign_canonical_string (email token channel country op : jsstring) :
  makeSign (VStr email) (VStr token) (VStr channel) (VStr country) (VStr op)
  = Normal (md5_hex (signStr email token channel country op))
  /\ (forall x, signStr x token channel country op
                = signStr email token channel country op -> x = email)
  /\ (forall x, signStr email x channel country op
                = signStr email token channel country op -> x = token)
  /\ (forall x, signStr email token x country op
                = signStr email token channel country op -> x = channel)
  /\ (forall x, signStr email token channel x op
                = signStr email token channel country op -> x = country)
  /\ (forall x, signStr email token channel country x
                = signStr email token channel country op -> x = op)
  /\ (forall email' token' channel' country' op',
        Forall (fun x => well_formed x = true)
          [email; token; channel; country; op] ->
        Forall (fun x => well_formed x = true)
          [email'; token'; channel'; country'; op'] ->
        utf8_encode (signStr email' token' channel' country' op')
        = utf8_encode (signStr email token channel country op) ->
        signStr email' token' channel' country' op'
        = signStr email token channel country op).
Proof.
  split; [reflexivity|].
  unfold signStr at 1 2 3 4 5 6 7 8 9 10.
  repeat split; try (intros x H; rewrite !app_assoc in H; peel H; exact H).
  intros email' token' channel' country' op' W W' E.
  repeat match goal with
         | H : Forall _ (_ :: _) |- _ =>
             let A := fresh "A" in
             apply Forall_cons_iff in H; destruct H as [A H]
         end.
  apply utf8_encode_inj; [apply signStr_well_formed..|exact E]; assumption.
Qed.

Lemma makeSign_canonical_string_witness :
  makeSign (VStr (js "a@x.com")) (VStr (js "T")) (VStr []) (VStr [])
    (VStr (js "email_code_login"))
  = Normal (md5_hex
              (js "channel=&country=&e_captcha=T&email=a@x.com&op=email_code_login"))
  /\ js "a@x.com" = js "a@x.com"
  /\ signStr (js "a@x.com") (js "T") [] [] (js "email_code_login")
     = js "channel=&country=&e_captcha=T&email=a@x.com&op=email_code_login".
Proof.
  pose proof (makeSign_canonical_string (js "a@x.com") (js "T") [] []
                (js "email_code_login")) as (E & I & _ & _ & _ & _ & U).
  split; [exact E|]. split; [exact (I (js "a@x.com") eq_refl)|].
  apply (U (js "a@x.com") (js "T") [] [] (js "email_code_login"));
    [repeat constructor..|reflexivity].
Defined.

(** ** Closed instances *)

(** Outside the domain of the batch claims: an entry that is not a
    string, or a token list that is missing, makes the loop throw before
    the inner [try]; the outer [catch] answers 500 and the results
    gathered so far are lost. *)
Remark batch_check_non_text_entry :
  fst (batch_check (scripted sample_answers)
         (batch_body (VArr [VStr (js "a@x.com:tok1"); VNum 3])
            (VArr [VStr (js "T")]))
         (start 0%nat))
  = Normal (server_error (TypeError (js "line.split is not a function"))).
Proof. vm_compute. reflexivity. Qed.

Remark batch_check_missing_tokens :
  fst (batch_check (scripted sample_answers)
         (VObj [(js "batch", VArr [VStr (js "a@x.com:tok1")])])
         (start 0%nat))
  = Normal (server_error
              (cannot_read (js "undefined") (js "0"))).
Proof. vm_compute. reflexivity. Qed.

(** The table has one more way into [error]: an answer of the first row
    whose redirect cannot be turned into text, and an answer outside the
    table whose code cannot, throw inside the [try]. *)
Remark classification_without_text :
  status_after
    (Body (Some (VObj [(js "code", VNum 0);
                       (js "message", VStr (js "Error_Success"));
                       (js "redirect", VObj [(js "toString", VNum 1)])])))
  = VStr (js "error")
  /\ status_after
       (Body (Some (VObj [(js "code", VArr [VObj [(js "toString", VNull)]]);
                          (js "message", VStr (js "x"))])))
     = VStr (js "error")
  /\ status_after (Body (Some VNull)) = VStr (js "error").
Proof. vm_compute. repeat split. Qed.

(** C1, as stated, fails: too many failures, a rejected captcha and a
    timeout all end in the status [error]; there is no status of their
    own for any of the three. *)
Lemma three_kinds_one_status :
  status_after (Body (Some (answer 1004 "Error_FailedTooMuch")))
  = VStr (js "error")
  /\ status_after (Body (Some (answer 1004 "Error_ECaptcha_VerifyFail")))
     = VStr (js "error")
  /\ status_after TimedOut = VStr (js "error").
Proof. vm_compute. repeat split. Qed.

Lemma classification_table_witness :
  exists outcome st',
    attempt_or_error (scripted [Body (Some (answer 1004 "Error_NoAccount"))])
      sample_record (VStr (js "T")) (start 0%nat)
    = (Normal outcome, st')
    /\ outcome = result_object (js "invalid") (js "No account found")
                   (VStr (js "a@x.com")) (VNum 1004)
                   (VStr (js "Error_NoAccount")).
Proof.
  destruct (classification_table nat
              (scripted [Body (Some (answer 1004 "Error_NoAccount"))])
              sample_record (VStr (js "T")) (start 0%nat))
    as (outcome & st' & E & _ & _ & T).
  exists outcome, st'. split; [exact E|].
  destruct (T (sign_of (js "T") sample_record) eq_refl) as (r & _ & _ & _ & F).
  exact (proj1 (proj2 (F (answer 1004 "Error_NoAccount") eq_refl))
           (conj eq_refl eq_refl)).
Defined.

Lemma batch_check_one_outcome_per_record_witness :
  exists outs st',
    batch_check (scripted sample_answers) sample_body (start 0%nat)
    = (Normal (ok [(js "success", VBool true); (js "results", VArr outs)]),
       st')
    /\ List.length outs = 3%nat
    /\ forall i line, nth_error sample_lines i = Some line ->
         exists r, nth_error outs i = Some r
                   /\ is_outcome (identifier_of line) r.
Proof.
  exact (batch_check_one_outcome_per_record nat (scripted sample_answers)
           sample_body (VStr (js "T")) [] sample_lines (start 0%nat)
           eq_refl eq_refl eq_refl).
Defined.

(** C4, as stated, fails on the batch route: with an empty token list
    the run is not rejected; the record is attempted (here the scripted
    remote end lets the request time out) and its outcome is returned
    with success. *)
Lemma batch_check_runs_without_tokens :
  let run := batch_check (scripted [])
               (batch_body (VArr [VStr (js "a@x.com:pw")]) (VArr []))
               (start 0%nat) in
  fst run
  = Normal (ok [(js "success", VBool true);
                (js "results",
                 VArr [error_object (js "Request timeout")
                         (VStr (js "a@x.com"))])])
  /\ List.length (sent (log (snd run))) = 1%nat.
Proof. vm_compute. split; reflexivity. Qed.

Lemma start_check_rejects_empty_witness :
  start_check nat 17
    (VObj [(js "combos", VArr []); (js "tokens", VArr [VStr (js "T")])])
    (start 0%nat)
  = (Normal (bad_request "Combos and tokens are required"), start 0%nat).
Proof.
  exact (proj1 (start_check_rejects_empty nat (scripted []) 17
                  (VObj [(js "combos", VArr []);
                         (js "tokens", VArr [VStr (js "T")])])
                  (start 0%nat) eq_refl)
           (or_introl eq_refl)).
Defined.

Lemma save_results_summary_witness :
  exists tail resp st',
    save_results disk_ok (js "2026-01-01T00:00:00.000Z") (js "now")
      (VObj [(js "results", VArr sample_outcomes)]) (start 0%nat)
    = (Normal resp, st')
    /\ log st'
       = [Written (js "results_2026-01-01T00-00-00-000Z.txt")
            (header (js "now") 2 1 0 1 ++ tail)]
    /\ 2%nat = (1 + 0 + 1 + 0)%nat.
Proof.
  refine (save_results_summary nat disk_ok (js "2026-01-01T00:00:00.000Z")
            (js "now") (VObj [(js "results", VArr sample_outcomes)])
            sample_outcomes (start 0%nat) eq_refl eq_refl _ _).
  - discriminate.
  - repeat constructor.
    + exists (js "a@x.com"). apply result_object_is_outcome. simpl. tauto.
    + exists (js "badline"). apply error_object_is_outcome.
Defined.

Lemma batch_check_first_token_witness :
  exists resp st',
    batch_check (scripted sample_answers) sample_body (start 0%nat)
    = (Normal resp, st')
    /\ sent (log st')
       = map (fun c => request_for (VStr (js "T")) (sign_of (js "T") c) c)
           [{| email := js "a@x.com"; password := js "tok1" |};
            {| email := js "b@x.com"; password := js "tok2" |}].
Proof.
  exact (batch_check_first_token nat (scripted sample_answers) sample_body
           (js "T") [] sample_lines (start 0%nat) eq_refl eq_refl eq_refl).
Defined.

(** C8, as stated, fails: the request asks for 2000 ms between requests,
    and the two attempts of the batch are each followed by a wait of
    500 ms, which is neither that value nor the default of 1000 ms. *)
Lemma batch_check_ignores_delay_setting :
  prop (prop sample_body_with_settings (js "settings"))
    (js "delayBetweenRequests") = VNum 2000
  /\ timers (log (snd (batch_check (scripted sample_answers)
                         sample_body_with_settings (start 0%nat))))
     = [500%Z; 500%Z].
Proof. vm_compute. split; reflexivity. Qed.

Lemma batch_check_fixed_delay_witness :
  (exists resp st',
     batch_check (scripted sample_answers) sample_body_with_settings
       (start 0%nat) = (Normal resp, st')
     /\ timers (log st') = [500%Z; 500%Z]
     /\ forall tok, VStr (js "T") = VStr tok ->
          log st'
          = flat_map
              (fun c => [Sent (request_for (VStr tok) (sign_of tok c) c);
                         Timer 500])
              (records_of sample_lines))
  /\ forall combos tokens' proxies settings,
       to_boolean settings = false ->
       prop (prop (workerData combos tokens' proxies settings)
               (js "settings"))
         (js "delayBetweenRequests")
       = VNum 1000.
Proof.
  exact (batch_check_fixed_delay nat (scripted sample_answers)
           sample_body_with_settings (VArr [VStr (js "T")]) (VStr (js "T"))
           sample_lines (start 0%nat) eq_refl eq_refl eq_refl eq_refl).
Defined.

Lemma separator_line_is_attempted_witness :
  exists c r st',
    record_of (js ":") = Some c
    /\ batch_check (scripted sample_answers)
         (batch_body (VArr [VStr (js ":")]) (VArr [VStr (js "T")]))
         (start 0%nat)
       = (Normal (ok [(js "success", VBool true);
                      (js "results", VArr [r])]), st')
    /\ log st'
       = [Sent (request_for (VStr (js "T")) (sign_of (js "T") c) c);
          Timer 500].
Proof.
  exact (proj2 (proj2 (separator_line_is_attempted nat
                         (scripted sample_answers)))
           (batch_body (VArr [VStr (js ":")]) (VArr [VStr (js "T")]))
           (VArr [VStr (js "T")]) (VStr (js "T")) (js "T") (js ":")
           (start 0%nat) eq_refl eq_refl eq_refl eq_refl eq_refl
           (or_introl eq_refl)).
Defined.

Lemma batch_check_empty_token_list_witness :
  exists outs st',
    batch_check (scripted sample_answers)
      (batch_body (VArr (map VStr sample_lines)) (VArr [])) (start 0%nat)
    = (Normal (ok [(js "success", VBool true); (js "results", VArr outs)]),
       st')
    /\ List.length outs = 3%nat
    /\ log st'
       = flat_map
           (fun c => [Sent (request_for (VStr []) (sign_of [] c) c);
                      Timer 500])
           (records_of sample_lines).
Proof.
  exact (batch_check_empty_token_list nat (scripted sample_answers)
           (batch_body (VArr (map VStr sample_lines)) (VArr []))
           sample_lines (start 0%nat) eq_refl eq_refl eq_refl).
Defined.

(** * More facts *)

(** ** The added definitions on known values *)

Example stringify_demo :
  stringify (VObj [(js "a", VArr [VNum 1; VNull; VUndefined;
                                  VStr (js "x" ++ [10; 34; 92; 1; 55296]%N)]);
                   (js "u", VUndefined);
                   (js "b", VObj [(js "c", VBool true)])])
  = Some (js "{" ++ [34%N] ++ js "a" ++ [34%N] ++ js ":[1,null,null,"
          ++ [34%N] ++ js "x\n\" ++ [34%N] ++ js "\\\u0001\ud800" ++ [34%N]
          ++ js "]," ++ [34%N] ++ js "b" ++ [34%N] ++ js ":{" ++ [34%N]
          ++ js "c" ++ [34%N] ++ js ":true}}").
Proof. reflexivity. Qed.

Example upload_lines_demo :
  upload_lines (js "a:b" ++ [13; 10; 32; 10]%N ++ js " c:d " ++ [10]%N)
  = [js "a:b"; js "c:d"].
Proof. reflexivity. Qed.

(** ** Trimming *)

Lemma trim_start_clean (s : jsstring) : starts_clean (trim_start s).
Proof.
  induction s as [|c r IH]; simpl; [exact I|].
  destruct (is_white_space c) eqn:E; [exact IH|exact E].
Qed.

Lemma trim_start_id (s : jsstring) : starts_clean s -> trim_start s = s.
Proof. destruct s as [|c r]; simpl; [reflexivity|]. now intros ->. Qed.

Lemma trim_start_snoc (l : jsstring) (c : code_unit) :
  is_white_space c = false -> trim_start (l ++ [c]) = trim_start l ++ [c].
Proof.
  intros E. induction l as [|x l IH]; simpl; [now rewrite E|].
  destruct (is_white_space x); [exact IH|reflexivity].
Qed.

Lemma trim_end_cons (c : code_unit) (r : jsstring) :
  is_white_space c = false -> trim_end (c :: r) = c :: trim_end r.
Proof.
  intros E. unfold trim_end. simpl rev.
  rewrite (trim_start_snoc _ c E), rev_app_distr. reflexivity.
Qed.

Lemma trim_end_id (s : jsstring) : ends_clean s -> trim_end s = s.
Proof.
  intros E. unfold trim_end. rewrite (trim_start_id _ E). apply rev_involutive.
Qed.

Lemma trim_clean (s : jsstring) : starts_clean (trim s) /\ ends_clean (trim s).
Proof.
  unfold trim. split.
  - pose proof (trim_start_clean s) as C.
    destruct (trim_start s) as [|c r]; [exact I|].
    simpl in C. rewrite (trim_end_cons c r C). exact C.
  - unfold ends_clean, trim_end. rewrite rev_involutive.
    apply trim_start_clean.
Qed.

Lemma trim_id (s : jsstring) : starts_clean s -> ends_clean s -> trim s = s.
Proof.
  intros S E. unfold trim. rewrite (trim_start_id _ S). now apply trim_end_id.
Qed.

Lemma in_trim_start (c : code_unit) (s : jsstring) :
  In c (trim_start s) -> In c s.
Proof.
  induction s as [|x r IH]; simpl; [tauto|].
  destruct (is_white_space x); [intros H; right; now apply IH|tauto].
Qed.

Lemma in_trim (c : code_unit) (s : jsstring) : In c (trim s) -> In c s.
Proof.
  unfold trim, trim_end. intros H.
  apply in_trim_start. apply in_rev. apply in_trim_start. now apply in_rev.
Qed.

Lemma before_first_no_sep (sep : code_unit) (s : jsstring) :
  ~ In sep (before_first sep s).
Proof.
  induction s as [|c r IH]; simpl; [tauto|].
  destruct (N.eqb c sep) eqn:E; simpl; [tauto|].
  apply N.eqb_neq in E. intros [H|H]; [now apply E|now apply IH].
Qed.

Lemma halves_of_line (sep : code_unit) (e p : jsstring) :
  ~ In sep e ->
  before_first sep (e ++ sep :: p) = e
  /\ after_first sep (e ++ sep :: p) = Some p.
Proof.
  induction e as [|c r IH]; simpl; intros H.
  - now rewrite N.eqb_refl.
  - destruct (N.eqb c sep) eqn:E.
    + apply N.eqb_eq in E. subst c. tauto.
    + destruct IH as [B A]; [tauto|]. now rewrite B, A.
Qed.

(** ** [parseComboLine]: what a record looks like *)

(** X2: a line made of an identifier without [':'] and a secret, neither
    with white space at its ends, parses to exactly that pair. *)
Theorem parse_written_record (e p : jsstring) :
  ~ In colon e ->
  starts_clean e -> ends_clean e -> starts_clean p -> ends_clean p ->
  parseComboLine (VStr (e ++ [colon] ++ p))
  = Normal (Some {| email := e; password := p |}).
Proof.
  intros C Se Ee Sp Ep. rewrite parseComboLine_record_of. unfold record_of.
  cbn [app]. destruct (halves_of_line colon e p C) as [B A].
  rewrite A, B, (trim_id e Se Ee), (trim_id p Sp Ep). reflexivity.
Qed.

Lemma parse_written_record_witness :
  parseComboLine (VStr (js "user@x.com:pa ss:w"))
  = Normal (Some {| email := js "user@x.com"; password := js "pa ss:w" |}).
Proof.
  apply (parse_written_record (js "user@x.com") (js "pa ss:w")).
  - simpl. intros H. repeat (destruct H as [H|H]; [discriminate H|]). exact H.
  - reflexivity.
  - reflexivity.
  - reflexivity.
  - reflexivity.
Defined.

(** X1: the two fields of every parsed record are free of white space at
    both ends, the identifier holds no [':'], and the record written back
    as [email:password] parses to itself: parsing normalises in one
    step. *)
Theorem parsed_record_normal (line : jsstring) (c : combo) :
  parseComboLine (VStr line) = Normal (Some c) ->
  starts_clean (email c) /\ ends_clean (email c)
  /\ starts_clean (password c) /\ ends_clean (password c)
  /\ ~ In colon (email c)
  /\ parseComboLine (VStr (line_of c)) = Normal (Some c).
Proof.
  rewrite parseComboLine_record_of. unfold record_of.
  destruct (after_first colon line) as [rest|]; [|discriminate].
  intros H. inversion H; subst c; clear H. cbn [email password].
  destruct (trim_clean (before_first colon line)) as [Se Ee].
  destruct (trim_clean rest) as [Sp Ep].
  assert (C : ~ In colon (trim (before_first colon line))).
  { intros I. apply in_trim in I. exact (before_first_no_sep _ _ I). }
  repeat split; try assumption.
  unfold line_of. cbn [email password].
  now apply parse_written_record.
Qed.

Lemma parsed_record_normal_witness :
  parseComboLine (VStr (line_of {| email := js "a b"; password := js "c:d" |}))
  = Normal (Some {| email := js "a b"; password := js "c:d" |}).
Proof.
  exact (proj2 (proj2 (proj2 (proj2 (proj2
    (parsed_record_normal (js "  a b : c:d  ")
       {| email := js "a b"; password := js "c:d" |} eq_refl)))))).
Defined.

(** ** [makeSign]: the shape of a signature, and what it cannot tell apart *)

Lemma cbind_normal {A B} (c : completion A) (k : A -> completion B)
  (b : B) :
  cbind c k = Normal b -> exists a, c = Normal a /\ k a = Normal b.
Proof. destruct c as [a|e]; simpl; [eauto|discriminate]. Qed.

Lemma normal_inj {A} (a b : A) : Normal a = Normal b -> a = b.
Proof. intros H. now inversion H. Qed.

Lemma cbind_ext {A B} (c : completion A) (k k' : A -> completion B) :
  (forall a, k a = k' a) -> cbind c k = cbind c k'.
Proof. intros H. destruct c; simpl; [apply H|reflexivity]. Qed.

Lemma all_hex_inv (k : nat) (s : jsstring) :
  In s (all_hex k) ->
  List.length s = k /\ Forall (fun c => In c hex_digits) s.
Proof.
  revert s. induction k as [|k IH]; intros s H; cbn [all_hex] in H.
  - destruct H as [<-|[]]. split; [reflexivity|constructor].
  - apply in_flat_map in H. destruct H as (c & C & H).
    apply in_map_iff in H. destruct H as (t & <- & T).
    destruct (IH t T) as [L F]. split; [simpl; now rewrite L|].
    constructor; assumption.
Qed.

(** X3: whenever [makeSign] returns, whatever the five arguments are, the
    signature is a string of exactly 32 characters, each one of
    [0123456789abcdef]. *)
Theorem makeSign_hex32 (email e_captcha channel country op : value)
  (sign : jsstring) :
  makeSign email e_captcha channel country op = Normal sign ->
  List.length sign = 32%nat
  /\ Forall (fun c => In c (js "0123456789abcdef")) sign.
Proof.
  unfold makeSign. intros H.
  repeat (apply cbind_normal in H; destruct H as (? & _ & H)).
  apply normal_inj in H. subst sign.
  exact (all_hex_inv 32 _ (md5_hex_in_all_hex _)).
Qed.

Lemma makeSign_hex32_witness :
  List.length (sign_of (js "T") sample_record) = 32%nat
  /\ Forall (fun c => In c (js "0123456789abcdef"))
       (sign_of (js "T") sample_record).
Proof.
  exact (makeSign_hex32 (VStr (js "a@x.com")) (VStr (js "T"))
           VUndefined VUndefined VUndefined
           (sign_of (js "T") sample_record) eq_refl).
Defined.

(** X4: the canonical string does not mark where one field ends: moving
    a fragment [x&email=] from the front of the identifier to the end of
    the token gives a different pair of arguments with the same
    signature, for every [x], identifier, token and for any channel,
    country and operation. *)
Theorem makeSign_field_shift (x e t : jsstring) (channel country op : value) :
  makeSign (VStr (x ++ js "&email=" ++ e)) (VStr t) channel country op
  = makeSign (VStr e) (VStr (t ++ js "&email=" ++ x)) channel country op
  /\ x ++ js "&email=" ++ e <> e.
Proof.
  split.
  - assert (E : forall ch co o,
               signStr (x ++ js "&email=" ++ e) t ch co o
               = signStr e (t ++ js "&email=" ++ x) ch co o).
    { intros. unfold signStr. do 5 f_equal. rewrite <- !app_assoc.
      reflexivity. }
    unfold makeSign. cbn [to_string].
    apply cbind_ext; intros ch. apply cbind_ext; intros co.
    cbn [cbind]. apply cbind_ext; intros o. now rewrite E.
  - intros H. apply (f_equal (@List.length _)) in H.
    rewrite !length_app in H. simpl in H. lia.
Qed.

(** ** The batch loop on any request *)

Section MoreRuns.

Variable World : Type.
Variable send : request -> World -> transport * World.

Lemma attempt_or_error_normal (parsed : combo) (token : value)
  (st : state World) :
  exists r st',
    attempt_or_error send parsed token st = (Normal r, st')
    /\ exists evs, log st' = log st ++ evs
                   /\ Forall fixed_event evs
                   /\ (List.length evs <= 1)%nat.
Proof.
  rewrite attempt_or_error_eq.
  destruct (makeSign _ _ _ _ _) as [sign|e].
  - eexists; eexists; split; [reflexivity|].
    eexists; split; [reflexivity|]. split; [|simpl; lia].
    repeat constructor. unfold request_for. eexists; reflexivity.
  - eexists; eexists; split; [reflexivity|].
    exists []. split; [now rewrite app_nil_r|]. split; [constructor|simpl; lia].
Qed.

(** One turn does not look at the results gathered so far. *)
Lemma batch_turn_acc (tokens : value) (acc : list value) (combo : value)
  (st : state World) :
  batch_turn send tokens acc combo st
  = (cmap (app acc) (fst (batch_turn send tokens [] combo st)),
     snd (batch_turn send tokens [] combo st)).
Proof.
  unfold batch_turn, bind, lift, ret.
  destruct (parseComboLine combo) as [[c|]|e]; [|reflexivity|reflexivity].
  destruct (get_index0 tokens) as [t0|e]; [|reflexivity].
  destruct (attempt_or_error_normal c (js_or t0 (VStr [])) st)
    as (r & st' & E & _).
  rewrite E. reflexivity.
Qed.

Lemma batch_loop_acc (tokens : value) (batch : list value) :
  forall (acc : list value) (st : state World),
    batch_loop send tokens acc batch st
    = (cmap (app acc) (fst (batch_loop send tokens [] batch st)),
       snd (batch_loop send tokens [] batch st)).
Proof.
  induction batch as [|combo rest IH]; intros acc st.
  - simpl. now rewrite app_nil_r.
  - cbn [batch_loop]. unfold bind.
    rewrite (batch_turn_acc tokens acc).
    destruct (batch_turn send tokens [] combo st) as [[r0|e] st0];
      cbn [cmap fst snd]; [|reflexivity].
    rewrite (IH (acc ++ r0)), (IH r0).
    destruct (batch_loop send tokens [] rest st0) as [[y|e] st1];
      cbn [cmap fst snd]; [|reflexivity].
    now rewrite app_assoc.
Qed.

Lemma batch_loop_app (tokens : value) (l1 l2 : list value) :
  forall (acc : list value) (st : state World),
    batch_loop send tokens acc (l1 ++ l2) st
    = match batch_loop send tokens acc l1 st with
      | (Normal r, st1) => batch_loop send tokens r l2 st1
      | (Throw e, st1) => (Throw e, st1)
      end.
Proof.
  induction l1 as [|combo rest IH]; intros acc st; [reflexivity|].
  cbn [app batch_loop]. unfold bind.
  destruct (batch_turn send tokens acc combo st) as [[r|e] st0];
    [apply IH|reflexivity].
Qed.

(** The handler on an array, in terms of the loop. *)
Lemma batch_check_array (body : value) (l : list value) (st : state World) :
  nullish body = false ->
  prop body (js "batch") = VArr l ->
  batch_check send body st
  = match batch_loop send (prop body (js "tokens")) [] l st with
    | (Normal r, st') => (Normal (batch_ok r), st')
    | (Throw e, st') => (Normal (server_error e), st')
    end.
Proof.
  intros N B. unfold batch_check, try_catch, bind, lift, destructure, ret.
  rewrite N, B. cbn [iterate].
  destruct (batch_loop _ _ _ _ _) as [[r|e] st']; reflexivity.
Qed.

(** X5: a batch cut in two gives, part after part, what it gives whole:
    if the first part is answered with results [r1] and the second part,
    run from where the first one left the world, with [r2], then the
    whole batch is answered with [r1 ++ r2] and leaves the same world and
    log; and if the first part fails, the whole batch fails alike. *)
Theorem batch_check_in_parts (b1 b2 b12 tokens : value) (l1 l2 : list value)
  (st st1 : state World) :
  nullish b1 = false -> nullish b2 = false -> nullish b12 = false ->
  prop b1 (js "batch") = VArr l1 ->
  prop b2 (js "batch") = VArr l2 ->
  prop b12 (js "batch") = VArr (l1 ++ l2) ->
  prop b1 (js "tokens") = tokens ->
  prop b2 (js "tokens") = tokens ->
  prop b12 (js "tokens") = tokens ->
  (forall r1 r2 st2,
     batch_check send b1 st = (Normal (batch_ok r1), st1) ->
     batch_check send b2 st1 = (Normal (batch_ok r2), st2) ->
     batch_check send b12 st = (Normal (batch_ok (r1 ++ r2)), st2))
  /\ (forall e,
        batch_check send b1 st = (Normal (server_error e), st1) ->
        batch_check send b12 st = (Normal (server_error e), st1)).
Proof.
  intros N1 N2 N12 B1 B2 B12 T1 T2 T12.
  rewrite (batch_check_array b1 l1 st N1 B1),
    (batch_check_array b12 (l1 ++ l2) st N12 B12), T1, T12, batch_loop_app.
  split.
  - intros r1 r2 st2 E1.
    rewrite (batch_check_array b2 l2 st1 N2 B2), T2.
    destruct (batch_loop send tokens [] l1 st) as [[r|e] st'];
      [|discriminate].
    inversion E1; subst r st'. rewrite (batch_loop_acc tokens l2 r1).
    destruct (batch_loop send tokens [] l2 st1) as [[r|e] st'];
      [|discriminate].
    intros E2. inversion E2; subst. reflexivity.
  - intros e E1.
    destruct (batch_loop send tokens [] l1 st) as [[r|e'] st'];
      [discriminate|].
    exact E1.
Qed.

(** X6: lines without a [':'] cost nothing and need no token: a batch
    made of such lines only is answered with success and, line for line,
    the outcome [error] / "Invalid combo format" carrying the line itself;
    no request is sent, no wait is made, and the token list is never
    read, so that it may even be missing. *)
Theorem batch_check_malformed_only (body : value) (lines : list jsstring)
  (st : state World) :
  nullish body = false ->
  prop body (js "batch") = VArr (map VStr lines) ->
  records_of lines = [] ->
  batch_check send body st = (Normal (batch_ok (map malformed lines)), st).
Proof.
  intros N B R. rewrite (batch_check_array body _ st N B).
  generalize (prop body (js "tokens")). intros tokens.
  assert (L : forall acc,
             batch_loop send tokens acc (map VStr lines) st
             = (Normal (acc ++ map malformed lines), st)).
  { clear B. induction lines as [|line rest IH]; intros acc; simpl.
    - now rewrite app_nil_r.
    - simpl in R. unfold bind, batch_turn at 1, bind, lift, ret.
      rewrite parseComboLine_record_of.
      destruct (record_of line); [discriminate|].
      rewrite (IH R). now rewrite <- app_assoc. }
  now rewrite L.
Qed.

(** X7: a token list that is missing or [null] stops the batch at its
    first well-formed line: the answer is 500 with the message of the
    failed read of [tokens[0]], no request has been sent and no wait
    made, and the outcomes of the malformed lines before it are lost. *)
Theorem batch_check_missing_token_list (body : value) (lines : list jsstring)
  (st : state World) :
  nullish body = false ->
  prop body (js "batch") = VArr (map VStr lines) ->
  nullish (prop body (js "tokens")) = true ->
  records_of lines <> [] ->
  batch_check send body st
  = (Normal (server_error
               (cannot_read (type_name (prop body (js "tokens"))) (js "0"))),
     st).
Proof.
  intros N B T R. rewrite (batch_check_array body _ st N B).
  revert T. generalize (prop body (js "tokens")). intros tokens T.
  assert (L : forall acc,
             batch_loop send tokens acc (map VStr lines) st
             = (Throw (cannot_read (type_name tokens) (js "0")), st)).
  { clear B. induction lines as [|line rest IH]; intros acc; [tauto|].
    simpl. simpl in R. unfold bind, batch_turn at 1, bind, lift, ret.
    rewrite parseComboLine_record_of.
    destruct (record_of line).
    - destruct tokens; try discriminate; reflexivity.
    - now rewrite (IH R). }
  now rewrite L.
Qed.


(** X9: a request without a batch, or with a batch that is neither an
    array nor a string, and a request without a body, are answered 500
    with a [TypeError]; nothing is sent and nothing else happens. *)
Theorem batch_check_not_iterable (body : value) (st : state World) :
  nullish body = true
  \/ ((forall l, prop body (js "batch") <> VArr l)
      /\ (forall s, prop body (js "batch") <> VStr s)) ->
  exists message,
    batch_check send body st = (Normal (server_error (TypeError message)), st).
Proof.
  unfold batch_check, try_catch, bind, lift, destructure, ret.
  intros [N|[A S]].
  - rewrite N. eexists; reflexivity.
  - destruct (nullish body); [eexists; reflexivity|].
    destruct (prop body (js "batch")) as [| |b|n|s|l|o];
      try (eexists; reflexivity).
    + now destruct (S s).
    + now destruct (A l).
Qed.

Lemma batch_turn_events (tokens : value) (acc : list value) (combo : value)
  (st : state World) :
  exists evs,
    log (snd (batch_turn send tokens acc combo st)) = log st ++ evs
    /\ Forall fixed_event evs
    /\ (List.length (sent evs) <= 1)%nat.
Proof.
  unfold batch_turn, bind, lift, ret.
  destruct (parseComboLine combo) as [[c|]|e];
    try (exists []; rewrite app_nil_r; repeat split; [constructor|simpl; lia]).
  destruct (get_index0 tokens) as [t0|e];
    try (exists []; rewrite app_nil_r; repeat split; [constructor|simpl; lia]).
  destruct (attempt_or_error_normal c (js_or t0 (VStr [])) st)
    as (r & st' & E & evs & L & F & B).
  rewrite E. unfold sleep, emit. cbn [snd log].
  exists (evs ++ [Timer 500]). rewrite L, <- app_assoc.
  split; [reflexivity|]. split.
  - apply Forall_app. split; [exact F|]. repeat constructor.
  - rewrite sent_app. simpl. rewrite app_nil_r.
    destruct evs as [|[r'|ms|n c'] [|? ?]]; simpl in *; lia.
Qed.

Lemma batch_loop_events (tokens : value) (batch : list value) :
  forall (acc : list value) (st : state World),
  exists evs,
    log (snd (batch_loop send tokens acc batch st)) = log st ++ evs
    /\ Forall fixed_event evs
    /\ (List.length (sent evs) <= List.length batch)%nat.
Proof.
  induction batch as [|combo rest IH]; intros acc st.
  - exists []. simpl. rewrite app_nil_r. repeat split; [constructor|lia].
  - cbn [batch_loop]. unfold bind.
    destruct (batch_turn_events tokens acc combo st) as (e1 & L1 & F1 & B1).
    destruct (batch_turn send tokens acc combo st) as [[r|e] st1];
      cbn [snd] in *.
    + destruct (IH r st1) as (e2 & L2 & F2 & B2).
      exists (e1 ++ e2). rewrite L2, L1, <- app_assoc.
      split; [reflexivity|]. split; [now apply Forall_app|].
      rewrite sent_app, length_app. simpl. lia.
    + exists e1. split; [exact L1|]. split; [exact F1|]. simpl. lia.
Qed.

(** X10: whatever the request holds, the handler answers, with 200 or
    with 500, and all it does on the way is send requests to the one
    endpoint (host, port 443, path [/]) with the one timeout of 30000 ms
    and wait 500 ms: no setting of the request changes the timeout or
    the target, nothing is written, and for a batch that is an array no
    more requests are sent than it has entries. *)
Theorem batch_check_fixed_endpoint (body : value) (st : state World) :
  exists resp st' evs,
    batch_check send body st = (Normal resp, st')
    /\ (res_status resp = 200%Z \/ res_status resp = 500%Z)
    /\ log st' = log st ++ evs
    /\ Forall fixed_event evs
    /\ Forall (fun r => req_timeout r = 30000%Z /\ req_port r = 443%Z
                        /\ req_hostname r
                           = js "accountmtapi.mobilelegends.com"
                        /\ req_path r = js "/") (sent evs)
    /\ forall l, prop body (js "batch") = VArr l ->
                 (List.length (sent evs) <= List.length l)%nat.
Proof.
  assert (S : forall evs, Forall fixed_event evs ->
              Forall (fun r => req_timeout r = 30000%Z /\ req_port r = 443%Z
                               /\ req_hostname r
                                  = js "accountmtapi.mobilelegends.com"
                               /\ req_path r = js "/") (sent evs)).
  { induction 1 as [|e evs H _ IH]; [constructor|].
    destruct e as [r|ms|n c]; simpl; try exact IH.
    constructor; [|exact IH]. destruct H as [payload ->].
    repeat split. }
  unfold batch_check, try_catch, bind, lift, destructure, ret.
  destruct (nullish body).
  { eexists; exists st, []. rewrite app_nil_r.
    repeat split; [right; reflexivity|constructor|constructor|].
    intros; simpl; lia. }
  cbn [cbind].
  destruct (iterate (prop body (js "batch"))) as [items|e] eqn:I.
  2:{ eexists; exists st, []. rewrite app_nil_r.
      repeat split; [right; reflexivity|constructor|constructor|].
      intros; simpl; lia. }
  destruct (batch_loop_events (prop body (js "tokens")) items [] st)
    as (evs & L & F & B).
  destruct (batch_loop send (prop body (js "tokens")) [] items st)
    as [[r|e] st'] eqn:E; cbn [snd] in L.
  - eexists; exists st', evs. repeat split; auto.
    intros l A. rewrite A in I. inversion I; subst. exact B.
  - eexists; exists st', evs. repeat split; auto.
    intros l A. rewrite A in I. inversion I; subst. exact B.
Qed.

End MoreRuns.

(** ** [/api/start-check] and [/api/save-results] on any request *)

Section MoreRoutes.

Variable World : Type.
Variable write_file : jsstring -> jsstring -> World -> option exn * World.

(** X11: [/api/start-check] starts nothing: whatever the request, the
    world and the log are left as they were, although the answer to a
    request with a non-empty array of records and a non-empty array of
    tokens says "Checking started", with the number of records as
    [totalAccounts] and the clock in decimal as [checkId]. *)
Theorem start_check_starts_nothing (now : Z) (body : value)
  (st : state World) :
  snd (start_check World now body st) = st
  /\ forall c cs t ts,
       nullish body = false ->
       prop body (js "combos") = VArr (c :: cs) ->
       prop body (js "tokens") = VArr (t :: ts) ->
       fst (start_check World now body st)
       = Normal (ok [(js "success", VBool true);
                     (js "message", VStr (js "Checking started"));
                     (js "totalAccounts",
                      VNum (Z.of_nat (List.length (c :: cs))));
                     (js "checkId", VStr (number_to_string now))]).
Proof.
  unfold start_check, try_catch, bind, lift, destructure, ret. split.
  - destruct (nullish body); [reflexivity|]. cbn [cbind].
    destruct (absent_or_empty _ || absent_or_empty _); reflexivity.
  - intros c cs t ts N C T. rewrite N, C, T. reflexivity.
Qed.

Lemma filter_status_nullish (s : jsstring) (l : list value) (v : value) :
  In v l -> nullish v = true ->
  exists message, filter_status s l = Throw (TypeError message).
Proof.
  induction l as [|r rest IH]; intros I N; [destruct I|].
  cbn [filter_status]. unfold get.
  destruct (nullish r) eqn:R; [eexists; reflexivity|].
  destruct I as [->|I]; [congruence|].
  destruct (IH I N) as [message E]. rewrite E. eexists; reflexivity.
Qed.

(** X12: [/api/save-results] writes nothing unless it is given a
    non-empty array without a [null] in it: absent or empty results are
    answered 400 "No results to save"; results that are not an array,
    and an array with a [null] element, are answered 500 with a
    [TypeError]; in all three cases the world and the log are left as
    they were. *)
Theorem save_results_rejections (iso locale : jsstring) (body : value)
  (st : state World) :
  nullish body = false ->
  (absent_or_empty (prop body (js "results")) = true ->
   save_results write_file iso locale body st
   = (Normal (bad_request "No results to save"), st))
  /\ (absent_or_empty (prop body (js "results")) = false ->
      (forall l, prop body (js "results") <> VArr l) ->
      save_results write_file iso locale body st
      = (Normal (server_error
                   (TypeError (js "results.filter is not a function"))), st))
  /\ (forall l v,
        prop body (js "results") = VArr l -> In v l -> nullish v = true ->
        exists message,
          save_results write_file iso locale body st
          = (Normal (server_error (TypeError message)), st)).
Proof.
  intros N.
  unfold save_results, try_catch, bind, lift, destructure, ret.
  rewrite N. cbn [cbind]. split; [|split].
  - intros ->. reflexivity.
  - intros -> A.
    destruct (prop body (js "results")) as [| |b|n|s|l|o];
      try reflexivity.
    now destruct (A l).
  - intros l v R I V. rewrite R.
    rewrite (not_absent_or_empty l)
      by (intros ->; destruct I).
    cbn [results_filter].
    destruct (filter_status_nullish (js "valid") l v I V) as [message E].
    rewrite E. eexists; reflexivity.
Qed.

Lemma email_lines_text (l : list value) :
  Forall an_outcome l ->
  email_lines l = Normal (flat_map (fun r => email_text r ++ nl) l).
Proof.
  induction 1 as [|r l H _ IH]; [reflexivity|].
  destruct H as (id & status & message & rest & -> & _).
  cbn [email_lines flat_map]. rewrite IH. unfold email_text.
  change (prop (VObj ((js "status", VStr status)
                      :: (js "message", VStr message)
                      :: (js "email", VStr id) :: rest)) (js "email"))
    with (VStr id).
  cbn [cbind to_string]. now rewrite <- app_assoc.
Qed.

Lemma results_content_exact (locale : jsstring) (l : list value) :
  Forall an_outcome l ->
  results_content locale (VArr l) (with_status (js "valid") l)
  = Normal (header locale (List.length l)
              (count_status (js "valid") l)
              (count_status (js "invalid") l)
              (count_status (js "error") l)
            ++ valid_section (with_status (js "valid") l)).
Proof.
  intros H. unfold results_content, results_filter, with_status.
  change (to_string (prop (VArr l) (js "length")))
    with (Normal (nat_to_string (List.length l))).
  cbn [cbind]. rewrite !(filter_status_outcomes _ l H). cbn [cbind].
  rewrite !filter_count.
  pose proof (filter_count (js "valid") l) as C.
  pose proof (filter_outcomes
                (fun r => strict_eq_str (prop r (js "status")) (js "valid"))
                l H) as O.
  destruct (filter _ l) as [|r valid] eqn:F.
  - simpl in C. rewrite <- C. cbn. unfold header.
    now rewrite app_nil_r.
  - simpl in C. rewrite <- C.
    change (0 <? S (List.length valid))%nat with true. cbv iota.
    rewrite (email_lines_text _ O). cbn [cbind].
    unfold header, valid_section. rewrite <- !app_assoc. reflexivity.
Qed.

(** X13: for a non-empty list of outcomes the file written is exactly
    the header followed, when there is a valid outcome, by the line
    "VALID ACCOUNTS:", the rule and the identifiers of the valid
    outcomes in their order, one per line, and by nothing when there is
    none: no other outcome and no other field of an outcome reaches the
    file.  The answer is the success with the file name and the link
    [/results/] plus that name when the write succeeds, and 500 with the
    message of the failure when it fails. *)
Theorem save_results_export (iso locale : jsstring) (body : value)
  (l : list value) (st : state World) :
  nullish body = false ->
  prop body (js "results") = VArr l ->
  l <> [] ->
  Forall an_outcome l ->
  let filename := js "results_" ++ dashes iso ++ js ".txt" in
  let content :=
    header locale (List.length l)
      (count_status (js "valid") l) (count_status (js "invalid") l)
      (count_status (js "error") l)
    ++ valid_section (with_status (js "valid") l) in
  save_results write_file iso locale body st
  = (Normal
       match fst (write_file filename content (world st)) with
       | None =>
           ok [(js "success", VBool true);
               (js "filename", VStr filename);
               (js "downloadUrl", VStr (js "/results/" ++ filename))]
       | Some e => server_error e
       end,
     {| world := snd (write_file filename content (world st));
        log := log st ++ [Written filename content] |}).
Proof.
  intros N R NE O filename content.
  unfold save_results, try_catch, bind, lift, destructure, writeFileSync,
    ret.
  rewrite N, R, (not_absent_or_empty l NE).
  unfold results_filter at 1. rewrite (filter_status_outcomes _ l O).
  cbn [cbind]. fold (with_status (js "valid") l).
  rewrite (results_content_exact locale l O).
  fold content. fold filename.
  destruct (write_file filename content (world st)) as [[e|] w];
    reflexivity.
Qed.

End MoreRoutes.

(** X14: the name of the file is [results_], the time stamp with every
    [':'] and ['.'] turned into ['-'], and [.txt]: it holds no [':'],
    its only ['.'] is the one of the extension, and the time stamp keeps
    its length. *)
Theorem export_file_name (iso : jsstring) :
  ~ In colon (js "results_" ++ dashes iso ++ js ".txt")
  /\ ~ In 46%N (js "results_" ++ dashes iso)
  /\ List.length (dashes iso) = List.length iso
  /\ ((~ In colon iso /\ ~ In 46%N iso) -> dashes iso = iso).
Proof.
  assert (D : forall c, (c = 58 \/ c = 46)%N -> ~ In c (dashes iso)).
  { intros c C. unfold dashes. rewrite in_map_iff. intros (x & E & _).
    destruct ((x =? 58)%N || (x =? 46)%N) eqn:T.
    - subst c. destruct C; discriminate.
    - subst c. apply orb_false_iff in T. destruct T as [T1 T2].
      apply N.eqb_neq in T1, T2. tauto. }
  repeat split.
  - rewrite !in_app_iff. intros [H|[H|H]].
    + simpl in H. repeat (destruct H as [H|H]; [discriminate H|]). exact H.
    + exact (D colon (or_introl eq_refl) H).
    + simpl in H. repeat (destruct H as [H|H]; [discriminate H|]). exact H.
  - rewrite in_app_iff. intros [H|H].
    + simpl in H. repeat (destruct H as [H|H]; [discriminate H|]). exact H.
    + exact (D 46%N (or_intror eq_refl) H).
  - unfold dashes. apply length_map.
  - intros [C P]. unfold dashes. rewrite <- (map_id iso) at 2.
    apply map_ext_in. intros x I.
    destruct (x =? 58)%N eqn:E1;
      [apply N.eqb_eq in E1; subst x; now destruct (C I)|].
    destruct (x =? 46)%N eqn:E2;
      [apply N.eqb_eq in E2; subst x; now destruct (P I)|].
    reflexivity.
Qed.


(** ** [/api/upload] *)

Lemma split_no_sep (sep : code_unit) (s p : jsstring) :
  In p (split sep s) -> ~ In sep p.
Proof.
  revert p. induction s as [|c r IH]; intros p; simpl.
  - intros [<-|[]]. tauto.
  - destruct (N.eqb c sep) eqn:E.
    + intros [<-|H]; [simpl; tauto|now apply IH].
    + apply N.eqb_neq in E.
      destruct (split sep r) as [|q qs].
      * intros [<-|[]]. simpl. intros [H|[]]. congruence.
      * intros [<-|H].
        -- simpl. intros [H|H]; [congruence|].
           exact (IH q (or_introl eq_refl) H).
        -- apply IH. now right.
Qed.

Lemma split_one (sep : code_unit) (p : jsstring) :
  ~ In sep p -> split sep p = [p].
Proof.
  induction p as [|c r IH]; simpl; intros H; [reflexivity|].
  destruct (N.eqb c sep) eqn:E; [apply N.eqb_eq in E; tauto|].
  rewrite IH by tauto. reflexivity.
Qed.

Lemma split_app (sep : code_unit) (p x : jsstring) :
  ~ In sep p -> split sep (p ++ sep :: x) = p :: split sep x.
Proof.
  induction p as [|c r IH]; simpl; intros H.
  - now rewrite N.eqb_refl.
  - destruct (N.eqb c sep) eqn:E; [apply N.eqb_eq in E; tauto|].
    rewrite IH by tauto. reflexivity.
Qed.

Lemma split_join (sep : code_unit) (parts : list jsstring) :
  Forall (fun p => ~ In sep p) parts -> parts <> [] ->
  split sep (join [sep] parts) = parts.
Proof.
  induction 1 as [|p parts P _ IH]; intros NE; [tauto|].
  destruct parts as [|q parts].
  - simpl. now apply split_one.
  - change (join [sep] (p :: q :: parts))
      with (p ++ sep :: join [sep] (q :: parts)).
    rewrite (split_app sep p _ P), IH by discriminate. reflexivity.
Qed.

(** X15: every line [/api/upload] returns is some line of the file with
    the white space at its two ends removed; it is not empty, neither
    starts nor ends with white space (so a carriage return before the
    line feed is gone) and holds no line feed. *)
Theorem upload_lines_clean (content line : jsstring) :
  In line (upload_lines content) ->
  line <> []
  /\ starts_clean line /\ ends_clean line
  /\ ~ In newline line
  /\ exists raw, In raw (split newline content) /\ line = trim raw.
Proof.
  unfold upload_lines. intros H. apply filter_In in H. destruct H as [H L].
  apply in_map_iff in H. destruct H as (raw & <- & R).
  destruct (trim_clean raw) as [S E].
  repeat split; try assumption.
  - intros Z. rewrite Z in L. discriminate.
  - intros I. apply in_trim in I. exact (split_no_sep _ _ _ R I).
  - exists raw. split; [exact R|reflexivity].
Qed.

Lemma upload_lines_clean_witness :
  js "c:d" <> [] /\ starts_clean (js "c:d") /\ ends_clean (js "c:d")
  /\ ~ In newline (js "c:d")
  /\ exists raw,
       In raw (split newline
                 (js "a:b" ++ [13; 10; 32; 10]%N ++ js " c:d " ++ [10]%N))
       /\ js "c:d" = trim raw.
Proof.
  apply (upload_lines_clean
           (js "a:b" ++ [13; 10; 32; 10]%N ++ js " c:d " ++ [10]%N)
           (js "c:d")).
  simpl. tauto.
Defined.

(** X16: a file written as lines joined by line feeds is read back line
    by line: when no line holds a line feed, the lines returned are the
    trimmed lines that are not empty, in order; and lines that are
    already clean, written so, come back exactly. *)
Theorem upload_lines_of_joined (lines : list jsstring) :
  Forall (fun p => ~ In newline p) lines ->
  upload_lines (join [newline] lines)
  = filter (fun line => (0 <? List.length line)%nat) (map trim lines)
  /\ (Forall (fun l => l <> [] /\ starts_clean l /\ ends_clean l) lines ->
      upload_lines (join [newline] lines) = lines).
Proof.
  intros F.
  assert (E : upload_lines (join [newline] lines)
              = filter (fun line => (0 <? List.length line)%nat)
                  (map trim lines)).
  { unfold upload_lines. destruct lines as [|p r]; [reflexivity|].
    rewrite split_join; [reflexivity|exact F|discriminate]. }
  split; [exact E|]. intros C. rewrite E. clear E F.
  induction C as [|l r (N & S & En) _ IH]; [reflexivity|].
  cbn [map filter]. rewrite (trim_id l S En), IH.
  destruct l; [tauto|reflexivity].
Qed.

Lemma upload_lines_of_joined_witness :
  upload_lines (join [newline] [js "a:b" ++ [13%N]; js "  "; js "c:d"])
  = [js "a:b"; js "c:d"]
  /\ upload_lines (join [newline] [js "a:b"; js "c:d"])
     = [js "a:b"; js "c:d"].
Proof.
  split.
  - refine (proj1 (upload_lines_of_joined
                     [js "a:b" ++ [13%N]; js "  "; js "c:d"] _)).
    repeat constructor; simpl; intros H;
      repeat (destruct H as [H|H]; [discriminate H|]); exact H.
  - refine (proj2 (upload_lines_of_joined [js "a:b"; js "c:d"] _) _).
    + repeat constructor; simpl; intros H;
        repeat (destruct H as [H|H]; [discriminate H|]); exact H.
    + repeat constructor; try discriminate; reflexivity.
Defined.

Section MoreSingle.

Variable World : Type.
Variable send : request -> World -> transport * World.
Variable read_file : value -> World -> completion jsstring * World.
Variable unlink : value -> World -> option exn * World.



(** X19: a request without a body is answered 500 by [/api/batch-check],
    [/api/start-check] and [/api/save-results], whose [catch] only reads
    the error; [/api/test-single] reads [req.body.email] in its [catch]
    and throws a second time, out of the handler: it does not answer. *)
Theorem missing_body (body : value) (st : state World) (now : Z)
  (iso locale : jsstring)
  (write_file : jsstring -> jsstring -> World -> option exn * World) :
  nullish body = true ->
  test_single send body st
  = (Throw (cannot_read (type_name body) (js "email")), st)
  /\ res_status_of (batch_check send body st) = Some 500%Z
  /\ res_status_of (start_check World now body st) = Some 500%Z
  /\ res_status_of (save_results write_file iso locale body st) = Some 500%Z.
Proof.
  intros N.
  unfold test_single, batch_check, start_check, save_results, try_catch,
    bind, lift, destructure, ret, get, res_status_of.
  rewrite N. repeat split.
Qed.

End MoreSingle.

(** ** The single test and the batch *)

Lemma classify_single_agrees (response : value) (e : jsstring) :
  nullish response = true
  \/ row response 1004 "Error_NoAccount"
  \/ row response 0 "Error_Success"
  \/ row response 1004 "Error_FailedTooMuch"
  \/ row response 1004 "Error_ECaptcha_VerifyFail" ->
  classify_single response (VStr e) = classify response e.
Proof.
  intros H. unfold classify_single, classify, destructure.
  destruct (nullish response) eqn:N; [reflexivity|]. cbn [cbind].
  destruct (strict_eq_num (prop response (js "code")) 1004
            && strict_eq_str (prop response (js "message"))
                 (js "Error_NoAccount")) eqn:T1; [reflexivity|].
  destruct (strict_eq_num (prop response (js "code")) 0
            && strict_eq_str (prop response (js "message"))
                 (js "Error_Success")) eqn:T2; [reflexivity|].
  destruct (strict_eq_num (prop response (js "code")) 1004
            && strict_eq_str (prop response (js "message"))
                 (js "Error_FailedTooMuch")) eqn:T3; [reflexivity|].
  destruct (strict_eq_num (prop response (js "code")) 1004
            && strict_eq_str (prop response (js "message"))
                 (js "Error_ECaptcha_VerifyFail")) eqn:T4; [reflexivity|].
  exfalso.
  destruct H as [H|[H|[H|[H|H]]]]; [discriminate| | | |];
    apply row_tests in H; congruence.
Qed.

Lemma classify_single_unknown (response email : value) (text : jsstring) :
  nullish response = false ->
  ~ row response 1004 "Error_NoAccount" ->
  ~ row response 0 "Error_Success" ->
  ~ row response 1004 "Error_FailedTooMuch" ->
  ~ row response 1004 "Error_ECaptcha_VerifyFail" ->
  stringify response = Some text ->
  classify_single response email
  = Normal (result_object (js "unknown") (js "Unknown response: " ++ text)
              email (prop response (js "code"))
              (prop response (js "message"))).
Proof.
  intros N N1 N2 N3 N4 S. unfold classify_single, destructure, JSON_stringify.
  rewrite N, S. cbn [cbind].
  rewrite <- row_tests in N1, N2, N3, N4.
  apply not_true_is_false in N1, N2, N3, N4.
  rewrite N1, N2, N3, N4. reflexivity.
Qed.

Section SingleAndBatch.

Variable World : Type.
Variable send : request -> World -> transport * World.

(** X20: the single test and one turn of the batch do the same thing
    for the same identifier and token: they send the same request and
    leave the same world and log, and the body of the single answer is
    the very outcome the batch records, whenever the round trip fails,
    the answer is [null], or it carries one of the four pairs of the
    table.  They part in two ways only: what the batch records as an
    outcome of a failed round trip the single test answers with status
    500, and an answer outside the table is rendered whole, as JSON,
    after "Unknown response: "; that text is the one of [stringify]
    when the numbers of the answer are safe integers. *)
Theorem single_and_batch_agree (body : value) (e tok p : jsstring)
  (st : state World) :
  nullish body = false ->
  prop body (js "email") = VStr e ->
  prop body (js "token") = VStr tok ->
  e <> [] -> tok <> [] ->
  let c := {| email := e; password := p |} in
  let r := request_for (VStr tok) (sign_of tok c) c in
  let t := fst (send r (world st)) in
  exists resp outcome st',
    test_single send body st = (Normal resp, st')
    /\ attempt_or_error send c (VStr tok) st = (Normal outcome, st')
    /\ log st' = log st ++ [Sent r]
    /\ ((forall response,
           settle t = Normal response ->
           nullish response = true
           \/ row response 1004 "Error_NoAccount"
           \/ row response 0 "Error_Success"
           \/ row response 1004 "Error_FailedTooMuch"
           \/ row response 1004 "Error_ECaptcha_VerifyFail") ->
        res_body resp = outcome)
    /\ (forall err, settle t = Throw err ->
          resp = single_error (exn_message err) (VStr e))
    /\ (forall response text,
          settle t = Normal response ->
          nullish response = false ->
          ~ row response 1004 "Error_NoAccount" ->
          ~ row response 0 "Error_Success" ->
          ~ row response 1004 "Error_FailedTooMuch" ->
          ~ row response 1004 "Error_ECaptcha_VerifyFail" ->
          safe_numbers response = true ->
          stringify response = Some text ->
          resp = {| res_status := 200;
                    res_body :=
                      result_object (js "unknown")
                        (js "Unknown response: " ++ text) (VStr e)
                        (prop response (js "code"))
                        (prop response (js "message")) |}).
Proof.
  intros N E T Ne Nt c r t.
  rewrite attempt_or_error_eq.
  change (email c) with e. rewrite makeSign_strings.
  unfold test_single, try_catch, bind, lift, destructure, ret, round_trip,
    get.
  rewrite N, E, T. cbn [cbind].
  assert (J : js_not (VStr e) || js_not (VStr tok) = false)
    by (destruct e; [tauto|]; destruct tok; [tauto|]; reflexivity).
  rewrite J, makeSign_strings. cbn [cbind].
  change (make_request
            (single_payload (js "email_code_login")
               (md5_hex (signStr e tok [] [] (js "email_code_login")))
               (VStr e) (VStr tok))) with r.
  change (request_for (VStr tok)
            (md5_hex (signStr e tok [] [] (js "email_code_login"))) c)
    with r.
  cbv zeta. subst t.
  destruct (send r (world st)) as [t w]. cbn [fst snd].
  destruct (settle t) as [response|err].
  - cbn [cbind].
    destruct (classify_single response (VStr e)) as [o|err] eqn:Cs.
    + eexists; eexists; eexists. split; [reflexivity|].
      split; [reflexivity|]. split; [reflexivity|]. split; [|split].
      * intros H. rewrite (classify_single_agrees response e) in Cs
          by (apply H; reflexivity).
        rewrite Cs. reflexivity.
      * intros err H. discriminate H.
      * intros response' text H N' N1 N2 N3 N4 _ S.
        inversion H; subst response'.
        rewrite (classify_single_unknown response (VStr e) text
                   N' N1 N2 N3 N4 S) in Cs.
        inversion Cs. reflexivity.
    + eexists; eexists; eexists. split; [reflexivity|].
      split; [reflexivity|]. split; [reflexivity|]. split; [|split].
      * intros H. rewrite (classify_single_agrees response e) in Cs
          by (apply H; reflexivity).
        rewrite Cs. reflexivity.
      * intros err' H. discriminate H.
      * intros response' text H N' N1 N2 N3 N4 _ S.
        inversion H; subst response'.
        rewrite (classify_single_unknown response (VStr e) text
                   N' N1 N2 N3 N4 S) in Cs.
        discriminate Cs.
  - eexists; eexists; eexists. split; [reflexivity|].
    split; [reflexivity|]. split; [reflexivity|]. split; [|split].
    + intros _. reflexivity.
    + intros err' H. inversion H. reflexivity.
    + intros response text H. discriminate H.
Qed.

End SingleAndBatch.

(** ** Closed instances of the added facts *)

Lemma batch_check_in_parts_witness :
  exists r1 r2 st1 st2,
    batch_check (scripted sample_answers)
      (batch_body (VArr [VStr (js "a@x.com:tok1")]) (VArr [VStr (js "T")]))
      (start 0%nat) = (Normal (batch_ok r1), st1)
    /\ batch_check (scripted sample_answers)
         (batch_body (VArr [VStr (js "badline"); VStr (js "b@x.com:tok2")])
            (VArr [VStr (js "T")]))
         st1 = (Normal (batch_ok r2), st2)
    /\ batch_check (scripted sample_answers) sample_body (start 0%nat)
       = (Normal (batch_ok (r1 ++ r2)), st2).
Proof.
  destruct (batch_check_spec nat (scripted sample_answers)
              (batch_body (VArr [VStr (js "a@x.com:tok1")])
                 (VArr [VStr (js "T")]))
              (VArr [VStr (js "T")]) (VStr (js "T")) [js "a@x.com:tok1"]
              (start 0%nat) eq_refl eq_refl eq_refl eq_refl)
    as (r1 & st1 & E1 & _).
  destruct (batch_check_spec nat (scripted sample_answers)
              (batch_body (VArr [VStr (js "badline");
                                 VStr (js "b@x.com:tok2")])
                 (VArr [VStr (js "T")]))
              (VArr [VStr (js "T")]) (VStr (js "T"))
              [js "badline"; js "b@x.com:tok2"]
              st1 eq_refl eq_refl eq_refl eq_refl)
    as (r2 & st2 & E2 & _).
  exists r1, r2, st1, st2. split; [exact E1|]. split; [exact E2|].
  exact (proj1 (batch_check_in_parts nat (scripted sample_answers)
                  (batch_body (VArr [VStr (js "a@x.com:tok1")])
                     (VArr [VStr (js "T")]))
                  (batch_body (VArr [VStr (js "badline");
                                     VStr (js "b@x.com:tok2")])
                     (VArr [VStr (js "T")]))
                  sample_body (VArr [VStr (js "T")])
                  [VStr (js "a@x.com:tok1")]
                  [VStr (js "badline"); VStr (js "b@x.com:tok2")]
                  (start 0%nat) st1
                  eq_refl eq_refl eq_refl eq_refl eq_refl eq_refl
                  eq_refl eq_refl eq_refl)
           r1 r2 st2 E1 E2).
Defined.

Lemma batch_check_malformed_only_witness :
  batch_check (scripted sample_answers)
    (VObj [(js "batch", VArr (map VStr [js "badline"; js ""]))])
    (start 0%nat)
  = (Normal (batch_ok [malformed (js "badline"); malformed (js "")]),
     start 0%nat).
Proof.
  exact (batch_check_malformed_only nat (scripted sample_answers)
           (VObj [(js "batch", VArr (map VStr [js "badline"; js ""]))])
           [js "badline"; js ""] (start 0%nat) eq_refl eq_refl eq_refl).
Defined.

Lemma batch_check_missing_token_list_witness :
  batch_check (scripted sample_answers)
    (VObj [(js "batch", VArr (map VStr [js "badline"; js "a:b"]))])
    (start 0%nat)
  = (Normal (server_error (cannot_read (js "undefined") (js "0"))),
     start 0%nat).
Proof.
  refine (batch_check_missing_token_list nat (scripted sample_answers)
            (VObj [(js "batch", VArr (map VStr [js "badline"; js "a:b"]))])
            [js "badline"; js "a:b"] (start 0%nat)
            eq_refl eq_refl eq_refl _).
  discriminate.
Defined.


Lemma batch_check_not_iterable_witness :
  exists message,
    batch_check (scripted sample_answers)
      (VObj [(js "tokens", VArr [VStr (js "T")])]) (start 0%nat)
    = (Normal (server_error (TypeError message)), start 0%nat).
Proof.
  apply (batch_check_not_iterable nat (scripted sample_answers)
           (VObj [(js "tokens", VArr [VStr (js "T")])]) (start 0%nat)).
  right. split; intros x H; discriminate H.
Defined.

Lemma start_check_starts_nothing_witness :
  fst (start_check nat 1700000000000
         (VObj [(js "combos", VArr [VStr (js "a:b"); VStr (js "c:d")]);
                (js "tokens", VArr [VStr (js "T")])])
         (start 0%nat))
  = Normal (ok [(js "success", VBool true);
                (js "message", VStr (js "Checking started"));
                (js "totalAccounts", VNum 2);
                (js "checkId", VStr (js "1700000000000"))]).
Proof.
  exact (proj2 (start_check_starts_nothing nat 1700000000000
                  (VObj [(js "combos",
                          VArr [VStr (js "a:b"); VStr (js "c:d")]);
                         (js "tokens", VArr [VStr (js "T")])])
                  (start 0%nat))
           (VStr (js "a:b")) [VStr (js "c:d")] (VStr (js "T")) []
           eq_refl eq_refl eq_refl).
Defined.

Lemma save_results_rejections_witness :
  save_results disk_ok (js "t") (js "now")
    (VObj [(js "results", VArr [])]) (start 0%nat)
  = (Normal (bad_request "No results to save"), start 0%nat)
  /\ exists message,
       save_results disk_ok (js "t") (js "now")
         (VObj [(js "results", VArr (sample_outcomes ++ [VNull]))])
         (start 0%nat)
       = (Normal (server_error (TypeError message)), start 0%nat).
Proof.
  split.
  - exact (proj1 (save_results_rejections nat disk_ok (js "t") (js "now")
                    (VObj [(js "results", VArr [])]) (start 0%nat) eq_refl)
             eq_refl).
  - refine (proj2 (proj2 (save_results_rejections nat disk_ok (js "t")
                            (js "now")
                            (VObj [(js "results",
                                    VArr (sample_outcomes ++ [VNull]))])
                            (start 0%nat) eq_refl))
              (sample_outcomes ++ [VNull]) VNull eq_refl _ eq_refl).
    simpl. tauto.
Defined.

Lemma sample_outcomes_are_outcomes : Forall an_outcome sample_outcomes.
Proof.
  repeat constructor.
  - exists (js "a@x.com"). apply result_object_is_outcome. simpl. tauto.
  - exists (js "badline"). apply error_object_is_outcome.
Qed.

Lemma save_results_export_witness :
  save_results disk_ok (js "2026-01-01T00:00:00.000Z") (js "now")
    (VObj [(js "results", VArr sample_outcomes)]) (start 0%nat)
  = (Normal (ok [(js "success", VBool true);
                 (js "filename",
                  VStr (js "results_2026-01-01T00-00-00-000Z.txt"));
                 (js "downloadUrl",
                  VStr (js "/results/results_2026-01-01T00-00-00-000Z.txt"))]),
     {| world := 0%nat;
        log := [Written (js "results_2026-01-01T00-00-00-000Z.txt")
                  (header (js "now") 2 1 0 1
                   ++ js "VALID ACCOUNTS:" ++ nl ++ rule ++ nl
                   ++ js "a@x.com" ++ nl)] |}).
Proof.
  refine (save_results_export nat disk_ok (js "2026-01-01T00:00:00.000Z")
            (js "now") (VObj [(js "results", VArr sample_outcomes)])
            sample_outcomes (start 0%nat) eq_refl eq_refl _
            sample_outcomes_are_outcomes).
  discriminate.
Defined.

Lemma export_file_name_witness :
  dashes (js "2026-01-01T00-00-00-000Z") = js "2026-01-01T00-00-00-000Z".
Proof.
  apply (export_file_name (js "2026-01-01T00-00-00-000Z")).
  split; simpl; intros H;
    repeat (destruct H as [H|H]; [discriminate H|]); exact H.
Defined.


Lemma missing_body_witness :
  test_single (scripted sample_answers) VUndefined (start 0%nat)
  = (Throw (cannot_read (js "undefined") (js "email")), start 0%nat)
  /\ res_status_of (batch_check (scripted sample_answers) VUndefined
                      (start 0%nat)) = Some 500%Z.
Proof.
  pose proof (missing_body nat (scripted sample_answers) VUndefined
                (start 0%nat) 0%Z [] [] disk_ok eq_refl) as (T & B & _).
  split; [exact T|exact B].
Defined.

Lemma single_and_batch_agree_witness :
  exists resp outcome st',
    test_single (scripted sample_answers)
      (VObj [(js "email", VStr (js "a@x.com"));
             (js "token", VStr (js "T"))])
      (start 0%nat)
    = (Normal resp, st')
    /\ attempt_or_error (scripted sample_answers) sample_record
         (VStr (js "T")) (start 0%nat)
       = (Normal outcome, st')
    /\ res_body resp = outcome.
Proof.
  destruct (single_and_batch_agree nat (scripted sample_answers)
              (VObj [(js "email", VStr (js "a@x.com"));
                     (js "token", VStr (js "T"))])
              (js "a@x.com") (js "T") (js "tok1") (start 0%nat)
              eq_refl eq_refl eq_refl
              ltac:(discriminate) ltac:(discriminate))
    as (resp & outcome & st' & E & A & _ & B & _).
  exists resp, outcome, st'. split; [exact E|]. split; [exact A|].
  apply B. intros response H. inversion H.
  right; right; left. split; reflexivity.
Defined.


(** ** What a status tells, and a remote end that is down *)


Section StatusAndDown.

Variable World : Type.
Variable send : request -> World -> transport * World.


(** X22: when every round trip fails, the batch goes on: it is answered
    with success, every well-formed record has been attempted once (as
    many requests as such records, no retry and no early stop) and has
    the outcome [error] with the message of the failure and its
    identifier, the malformed lines the outcome of a malformed line. *)
Theorem batch_check_remote_down (body : value) (tok : jsstring)
  (more : list value) (lines : list jsstring) (err : exn)
  (st : state World) :
  nullish body = false ->
  prop body (js "batch") = VArr (map VStr lines) ->
  prop body (js "tokens") = VArr (VStr tok :: more) ->
  (forall r w, settle (fst (send r w)) = Throw err) ->
  exists st',
    batch_check send body st
    = (Normal (batch_ok (map (outcome_when_down err) lines)), st')
    /\ sent (log st')
       = sent (log st)
         ++ map (fun c => request_for (VStr tok) (sign_of tok c) c)
              (records_of lines).
Proof.
  intros N B K D.
  rewrite (batch_check_array World send body _ st N B), K.
  assert (L : forall acc st0,
             exists st',
               batch_loop send (VArr (VStr tok :: more)) acc
                 (map VStr lines) st0
               = (Normal (acc ++ map (outcome_when_down err) lines), st')
               /\ sent (log st')
                  = sent (log st0)
                    ++ map (fun c => request_for (VStr tok) (sign_of tok c) c)
                         (records_of lines)).
  { clear B. induction lines as [|line rest IH]; intros acc st0.
    - exists st0. simpl. now rewrite !app_nil_r.
    - cbn [map batch_loop records_of]. unfold bind, batch_turn at 1, bind,
        lift, ret.
      rewrite parseComboLine_record_of.
      assert (O : outcome_when_down err line
                  = match record_of line with
                    | Some c => error_object (exn_message err)
                                  (VStr (email c))
                    | None => malformed line
                    end) by reflexivity.
      rewrite O. clear O.
      destruct (record_of line) as [c|].
      + cbn [get_index0]. rewrite js_or_token, attempt_or_error_eq,
          makeSign_strings. cbv zeta. rewrite D. cbn [cbind outcome_of].
        unfold sleep, emit. cbn [world log].
        match goal with
        | |- context [batch_loop _ _ _ _ ?s] =>
            destruct (IH (acc ++ [error_object (exn_message err)
                                    (VStr (email c))]) s)
              as (st' & E & S)
        end.
        exists st'. rewrite E, S. cbn [log].
        rewrite !sent_app.
        change (sent [Timer 500]) with (@nil request).
        change (sent [Sent (request_for (VStr tok)
                              (md5_hex (signStr (email c) tok [] []
                                          (js "email_code_login"))) c)])
          with [request_for (VStr tok) (sign_of tok c) c].
        cbn [map]. rewrite !app_nil_r, <- !app_assoc.
        split; reflexivity.
      + destruct (IH (acc ++ [malformed line]) st0) as (st' & E & S).
        exists st'. unfold malformed in *. rewrite E, S, <- app_assoc.
        split; reflexivity. }
  destruct (L [] st) as (st' & E & S). exists st'. rewrite E.
  split; [reflexivity|exact S].
Qed.

End StatusAndDown.


Lemma batch_check_remote_down_witness :
  exists st',
    batch_check (scripted []) sample_body (start 0%nat)
    = (Normal (batch_ok (map (outcome_when_down
                                (Error (js "Request timeout")))
                           sample_lines)), st')
    /\ List.length (sent (log st')) = 2%nat.
Proof.
  destruct (batch_check_remote_down nat (scripted []) sample_body (js "T") []
              sample_lines (Error (js "Request timeout")) (start 0%nat)
              eq_refl eq_refl eq_refl)
    as (st' & E & S).
  - intros r w. unfold scripted. cbn [fst]. now destruct w.
  - exists st'. split; [exact E|]. rewrite S. reflexivity.
Defined.
